(** * SSO-1 signal oracle: attestation binding and signal lifecycle

    A shallow embedding of the Python sources of the repository

    - [oracle/offchain/tee/__init__.py]  (TEE attestation interface),
    - [tests/integration/test_signal_oracle.py]  (the receipt, assessment and
      market-context builders used against the on-chain program),
    - [patch_idl.py]  (the IDL patch script),

    together with a model of the on-chain verification engine, which is not
    part of the Python sources and is written down from the specification. *)

From Stdlib Require Import ZArith NArith Lia Bool String.
From Stdlib Require Import Strings.Byte.
From stdpp Require Import gmap list.
Import ListNotations.

Local Open Scope Z_scope.

(** ** Bytes *)

(** A Python [bytes] object is a [list byte]. *)
Abbreviation bytes := (list byte).

#[global] Instance byte_eq_decision : EqDecision byte := Byte.byte_eq_dec.

#[global] Instance byte_countable : Countable byte :=
  inj_countable Byte.to_N Byte.of_N Byte.of_to_N.

Definition byte_to_Z (b : byte) : Z := Z.of_N (Byte.to_N b).

Definition byte_of_Z (z : Z) : byte :=
  match Byte.of_N (Z.to_N (z mod 256)) with
  | Some b => b
  | None => x00
  end.

(** [b"\x00" * n] *)
Definition zero_bytes (n : nat) : bytes := replicate n x00.

(** ** SHA-256 ([hashlib.sha256(...).digest()], FIPS 180-4)

    Words are 32-bit unsigned integers, carried as [Z] with the wrap-around
    written out. *)
Module SHA256.

Definition modulus : Z := 2 ^ 32.

Definition add32 (x y : Z) : Z := (x + y) mod modulus.

Definition rotr (n x : Z) : Z :=
  Z.lor (Z.shiftr x n) (Z.shiftl x (32 - n) mod modulus).

Definition ch (x y z : Z) : Z :=
  Z.lxor (Z.land x y) (Z.land (Z.lnot x) z).

Definition maj (x y z : Z) : Z :=
  Z.lxor (Z.lxor (Z.land x y) (Z.land x z)) (Z.land y z).

Definition big_sigma0 (x : Z) : Z :=
  Z.lxor (Z.lxor (rotr 2 x) (rotr 13 x)) (rotr 22 x).

Definition big_sigma1 (x : Z) : Z :=
  Z.lxor (Z.lxor (rotr 6 x) (rotr 11 x)) (rotr 25 x).

Definition small_sigma0 (x : Z) : Z :=
  Z.lxor (Z.lxor (rotr 7 x) (rotr 18 x)) (Z.shiftr x 3).

Definition small_sigma1 (x : Z) : Z :=
  Z.lxor (Z.lxor (rotr 17 x) (rotr 19 x)) (Z.shiftr x 10).

(** The constants of FIPS 180-4 are derived rather than tabulated: the
    round constants are the first 32 fractional bits of the cube roots of
    the first 64 primes, the initial chaining value those of the square
    roots of the first 8 primes. *)
Definition is_prime (n : Z) : bool :=
  (1 <? n)
  && forallb (fun d => (n <? d * d) || negb (n mod d =? 0))
       (map Z.of_nat (seq 2 (Z.to_nat n - 2))).

Definition primes_below (bound : nat) : list Z :=
  filter (fun n => is_prime n = true) (map Z.of_nat (seq 2 (bound - 2))).

(** Integer cube root, one result bit at a time from the top. *)
Fixpoint cube_root_from (bit : nat) (n r : Z) : Z :=
  match bit with
  | O => r
  | S bit' =>
      let c := r + 2 ^ Z.of_nat bit' in
      cube_root_from bit' n (if c * c * c <=? n then c else r)
  end.

Definition cube_root (n : Z) : Z := cube_root_from 40 n 0.

Definition round_constants : list Z :=
  Eval vm_compute in
    map (fun p => cube_root (p * 2 ^ 96) mod modulus) (take 64 (primes_below 312)).

Definition initial_words : list Z :=
  Eval vm_compute in
    map (fun p => Z.sqrt (p * 2 ^ 64) mod modulus) (take 8 (primes_below 20)).

(** The eight working registers / the chaining value. *)
Record regs := Regs {
  ra : Z; rb : Z; rc : Z; rd : Z; re : Z; rf : Z; rg : Z; rh : Z
}.

Definition initial_hash : regs :=
  let word i := nth i initial_words 0 in
  Regs (word 0%nat) (word 1%nat) (word 2%nat) (word 3%nat)
       (word 4%nat) (word 5%nat) (word 6%nat) (word 7%nat).

(** Big-endian packing of four bytes into a word and back. *)
Definition word_of_bytes (bs : bytes) : Z :=
  fold_left (fun acc b => acc * 256 + byte_to_Z b) bs 0.

Definition bytes_of_word (w : Z) : bytes :=
  [ byte_of_Z (Z.shiftr w 24); byte_of_Z (Z.shiftr w 16);
    byte_of_Z (Z.shiftr w 8); byte_of_Z w ].

(** Message padding: a [0x80] byte, zeros up to 56 mod 64, and the bit
    length as a 64-bit big-endian integer. *)
Definition length_field (bitlen : Z) : bytes :=
  bytes_of_word (Z.shiftr bitlen 32) ++ bytes_of_word bitlen.

Definition pad (msg : bytes) : bytes :=
  let len := Z.of_nat (length msg) in
  msg ++ [x80] ++ zero_bytes (Z.to_nat ((55 - len) mod 64))
      ++ length_field (8 * len).

(** Split a 64-byte block into its sixteen words. *)
Fixpoint block_words (n : nat) (block : bytes) : list Z :=
  match n with
  | O => []
  | S n' => word_of_bytes (firstn 4 block) :: block_words n' (skipn 4 block)
  end.

(** Extend the sixteen block words to the 64-entry message schedule. *)
Fixpoint extend_schedule (n : nat) (w : list Z) : list Z :=
  match n with
  | O => w
  | S n' =>
      let t := length w in
      let wt := add32 (add32 (add32 (small_sigma1 (nth (t - 2) w 0))
                                    (nth (t - 7) w 0))
                             (small_sigma0 (nth (t - 15) w 0)))
                      (nth (t - 16) w 0) in
      extend_schedule n' (w ++ [wt])
  end.

Definition schedule (block : bytes) : list Z :=
  extend_schedule 48 (block_words 16 block).

Definition round (r : regs) (kw : Z * Z) : regs :=
  let t1 := add32 (add32 (add32 (add32 (rh r) (big_sigma1 (re r)))
                                (ch (re r) (rf r) (rg r)))
                         (fst kw))
                  (snd kw) in
  let t2 := add32 (big_sigma0 (ra r)) (maj (ra r) (rb r) (rc r)) in
  Regs (add32 t1 t2) (ra r) (rb r) (rc r)
       (add32 (rd r) t1) (re r) (rf r) (rg r).

Definition compress (h : regs) (block : bytes) : regs :=
  let r := fold_left round (combine round_constants (schedule block)) h in
  Regs (add32 (ra h) (ra r)) (add32 (rb h) (rb r))
       (add32 (rc h) (rc r)) (add32 (rd h) (rd r))
       (add32 (re h) (re r)) (add32 (rf h) (rf r))
       (add32 (rg h) (rg r)) (add32 (rh h) (rh r)).

(** Absorb the padded message block by block; [fuel] bounds the number of
    blocks. *)
Fixpoint absorb (fuel : nat) (h : regs) (data : bytes) : regs :=
  match fuel, data with
  | O, _ => h
  | _, [] => h
  | S fuel', _ => absorb fuel' (compress h (firstn 64 data)) (skipn 64 data)
  end.

Definition output (h : regs) : bytes :=
  bytes_of_word (ra h) ++ bytes_of_word (rb h) ++
  bytes_of_word (rc h) ++ bytes_of_word (rd h) ++
  bytes_of_word (re h) ++ bytes_of_word (rf h) ++
  bytes_of_word (rg h) ++ bytes_of_word (rh h).

Definition digest (msg : bytes) : bytes :=
  let data := pad msg in
  output (absorb (length data) initial_hash data).

End SHA256.

Definition sha256 (msg : bytes) : bytes := SHA256.digest msg.

Definition hex_digit (n : Z) : Ascii.ascii :=
  Ascii.ascii_of_N (Z.to_N (if n <? 10 then 48 + n else 87 + n)).

Fixpoint hex (bs : bytes) : string :=
  match bs with
  | [] => EmptyString
  | b :: bs' =>
      String (hex_digit (byte_to_Z b / 16))
             (String (hex_digit (byte_to_Z b mod 16)) (hex bs'))
  end.

Definition bytes_of_string (s : string) : bytes := list_byte_of_string s.


(** ** Logging

    [logger.warning(...)] is the only effect of the off-chain module. A
    computation threads the state of the logging system: which records the
    logger lets through (its effective level, its filters, whether it is
    disabled) and the records handed to the handlers so far. *)
Inductive LogLevel := WARNING.

Record LogRecord := mkLog { log_name : string; log_level : LogLevel; log_msg : string }.

Record Logging := mkLogging {
  emits : LogRecord -> bool;
  records : list LogRecord
}.

(** A record reaches the handlers only when the logger lets it through. *)
Definition handle (r : LogRecord) (log : Logging) : Logging :=
  if emits log r then mkLogging (emits log) (records log ++ [r]) else log.

(** A logging system that lets every record through, or none, with nothing
    handled yet. *)
Definition verbose : Logging := mkLogging (fun _ => true) [].
Definition silent : Logging := mkLogging (fun _ => false) [].

Definition Logged (A : Type) : Type := Logging -> A * Logging.

Definition ret {A} (a : A) : Logged A := fun log => (a, log).

Definition bind {A B} (m : Logged A) (k : A -> Logged B) : Logged B :=
  fun log => let (a, log') := m log in k a log'.

Notation "x <- m ;; k" := (bind m (fun x => k))
  (at level 100, m at next level, right associativity).
Notation "m ;;; k" := (bind m (fun _ => k))
  (at level 100, right associativity).

Definition returned {A} (m : Logged A) (log : Logging) : A := fst (m log).
Definition emitted {A} (m : Logged A) (log : Logging) : list LogRecord :=
  records (snd (m log)).

(** ** [oracle/offchain/tee/__init__.py] *)
Module Tee.

(** [logger = logging.getLogger("sso1.tee")]; [logger.warning(msg)] makes
    a record only when the logger is enabled for WARNING and hands it to the
    handlers only when the logger lets it through. *)
Definition warning (msg : string) : Logged unit :=
  fun log => (tt, handle (mkLog "sso1.tee" WARNING msg) log).

Inductive TeePlatform := AMD_SEV_SNP | INTEL_TDX | UNKNOWN.

Definition TeePlatform_value (p : TeePlatform) : string :=
  match p with
  | AMD_SEV_SNP => "amd-sev-snp"
  | INTEL_TDX => "intel-tdx"
  | UNKNOWN => "unknown"
  end.

Definition TeePlatform_eqb (p q : TeePlatform) : bool :=
  match p, q with
  | AMD_SEV_SNP, AMD_SEV_SNP | INTEL_TDX, INTEL_TDX | UNKNOWN, UNKNOWN => true
  | _, _ => false
  end.

Record AttestationReport := mkAttestationReport {
  platform : TeePlatform;
  report_data : bytes;
  measurement : bytes;
  report_id : bytes;
  platform_version : Z;
  tcb_version : Z
}.

(** class [SevSnpAttester]: the only attribute is [_available]. *)
Record SevSnpAttester := mkSevSnpAttester { _available : bool }.

(** [SevSnpAttester.__init__] *)
Definition SevSnpAttester_new : Logged SevSnpAttester :=
  let self := mkSevSnpAttester false in
  warning "SevSnpAttester: NOT IMPLEMENTED - attestation unavailable" ;;;
  ret self.

(** property [is_available] *)
Definition is_available (self : SevSnpAttester) : bool := _available self.

Definition get_report (self : SevSnpAttester) (user_data : bytes)
  : Logged (option AttestationReport) :=
  warning "get_report: NOT IMPLEMENTED" ;;;
  ret None.

Definition get_measurement (self : SevSnpAttester) : Logged (option bytes) :=
  warning "get_measurement: NOT IMPLEMENTED" ;;;
  ret None.

Definition detect_platform : Logged TeePlatform :=
  warning "detect_platform: NOT IMPLEMENTED - returning UNKNOWN" ;;;
  ret UNKNOWN.

Definition hash_signal_data (market_context signal_assessment : bytes) : bytes :=
  let combined := market_context ++ signal_assessment in
  sha256 combined.

Definition get_attester : Logged (option SevSnpAttester) :=
  platform <- detect_platform ;;
  if TeePlatform_eqb platform AMD_SEV_SNP then
    a <- SevSnpAttester_new ;; ret (Some a)
  else if TeePlatform_eqb platform INTEL_TDX then
    warning "Intel TDX not yet supported" ;;;
    ret None
  else
    warning "No TEE platform detected" ;;;
    ret None.

End Tee.

(** ** Instruction payloads

    The dictionaries returned by the builders' [build] methods, one record
    per dictionary shape. Anchor byte arrays ([list(b)]) stay [bytes]. *)
Inductive Direction := Long | Short | Neutral.

Inductive Status := Active | Revoked.

Record MarketContext := mkMarketContext {
  timestamp : Z;
  captured_at_slot : Z;
  price_usd : Z;
  volume_24h_usd : Z;
  market_cap_usd : Z;
  price_change_24h_bps : Z;
  spread_bps : Z;
  depth_2pct_usd : Z;
  source_count : Z;
  source_bitmap : Z;
  asset_symbol : bytes;
  mc_reserved : bytes
}.

Record SignalAssessment := mkSignalAssessment {
  direction : Direction;
  strength : Z;
  confidence : Z;
  time_horizon_slots : Z;
  valid_until_slot : Z;
  generated_at_slot : Z;
  risk_score : Z;
  suggested_size_bps : Z;
  model_version : Z;
  model_params_hash : bytes;
  sa_reserved : bytes
}.

Record TeeReceipt := mkTeeReceipt {
  mr_enclave : bytes;
  mr_signer : bytes;
  enclave_signature : bytes;
  enclave_pubkey : bytes;
  report_data : bytes;
  attestation_timestamp : Z;
  platform : Tee.TeePlatform;
  svn : Z;
  tr_reserved : bytes
}.

(** [solders.pubkey.Pubkey]: an opaque 32-byte key; [bytes(pk)] reads it. *)
Record Pubkey := mkPubkey { pubkey_bytes : bytes }.

(** [solders.keypair.Keypair] *)
Record Keypair := mkKeypair { secret : bytes; pubkey : Pubkey }.

(** ** [tests/integration/test_signal_oracle.py] *)
Module TestSignalOracle.

Definition MIN_VALIDITY_SLOTS : Z := 10.
Definition MAX_VALIDITY_SLOTS : Z := 1000.
Definition MIN_SOURCE_COUNT : Z := 1.
Definition MIN_CONFIDENCE : Z := 5000.

(** *** [MarketContextBuilder] *)
Record MarketContextBuilder := mkMarketContextBuilder {
  mcb_timestamp : Z;
  mcb_captured_at_slot : Z;
  mcb_price_usd : Z;
  mcb_volume_24h_usd : Z;
  mcb_market_cap_usd : Z;
  mcb_price_change_24h_bps : Z;
  mcb_spread_bps : Z;
  mcb_depth_2pct_usd : Z;
  mcb_source_count : Z;
  mcb_source_bitmap : Z;
  mcb_asset_symbol : bytes
}.

Definition MarketContextBuilder_new : MarketContextBuilder :=
  mkMarketContextBuilder 0 0 5000000000000 1000000000000 1000000000000000
    250 10 10000000000000 3 7 [x42; x54; x43; x00; x00; x00; x00; x00].

(** [with_slot]; [now] is the reading of [int(time.time())]. *)
Definition mcb_with_slot (now : Z) (self : MarketContextBuilder) (slot : Z)
  : MarketContextBuilder :=
  mkMarketContextBuilder now slot
    (mcb_price_usd self) (mcb_volume_24h_usd self) (mcb_market_cap_usd self)
    (mcb_price_change_24h_bps self) (mcb_spread_bps self)
    (mcb_depth_2pct_usd self) (mcb_source_count self)
    (mcb_source_bitmap self) (mcb_asset_symbol self).

(** [with_sources]; [1 << count] raises [ValueError] on a negative count. *)
Definition mcb_with_sources (self : MarketContextBuilder) (count : Z)
  : option MarketContextBuilder :=
  if count <? 0 then None
  else Some (mkMarketContextBuilder
    (mcb_timestamp self) (mcb_captured_at_slot self)
    (mcb_price_usd self) (mcb_volume_24h_usd self) (mcb_market_cap_usd self)
    (mcb_price_change_24h_bps self) (mcb_spread_bps self)
    (mcb_depth_2pct_usd self) count (Z.shiftl 1 count - 1)
    (mcb_asset_symbol self)).

Definition mcb_build (self : MarketContextBuilder) : MarketContext :=
  mkMarketContext
    (mcb_timestamp self) (mcb_captured_at_slot self)
    (mcb_price_usd self) (mcb_volume_24h_usd self) (mcb_market_cap_usd self)
    (mcb_price_change_24h_bps self) (mcb_spread_bps self)
    (mcb_depth_2pct_usd self) (mcb_source_count self)
    (mcb_source_bitmap self) (mcb_asset_symbol self) (zero_bytes 32).

(** *** [SignalAssessmentBuilder] *)
Record SignalAssessmentBuilder := mkSignalAssessmentBuilder {
  sab_direction : Z;
  sab_strength : Z;
  sab_confidence : Z;
  sab_time_horizon_slots : Z;
  sab_valid_until_slot : Z;
  sab_generated_at_slot : Z;
  sab_risk_score : Z;
  sab_suggested_size_bps : Z;
  sab_model_version : Z;
  sab_model_params_hash : bytes
}.

Definition SignalAssessmentBuilder_new : SignalAssessmentBuilder :=
  mkSignalAssessmentBuilder 1 7500 8000 100 0 0 3000 500 1 (zero_bytes 32).

Definition sab_set_window (self : SignalAssessmentBuilder)
  (generated until : Z) : SignalAssessmentBuilder :=
  mkSignalAssessmentBuilder
    (sab_direction self) (sab_strength self) (sab_confidence self)
    (sab_time_horizon_slots self) until generated
    (sab_risk_score self) (sab_suggested_size_bps self)
    (sab_model_version self) (sab_model_params_hash self).

(** [with_validity(current_slot, duration=100)] *)
Definition with_validity (self : SignalAssessmentBuilder)
  (current_slot : Z) (duration : Z) : SignalAssessmentBuilder :=
  sab_set_window self current_slot (current_slot + duration).

(** [with_expired(current_slot)] *)
Definition with_expired (self : SignalAssessmentBuilder) (current_slot : Z)
  : SignalAssessmentBuilder :=
  sab_set_window self (current_slot - 200) (current_slot - 100).

Definition with_confidence (self : SignalAssessmentBuilder) (c : Z)
  : SignalAssessmentBuilder :=
  mkSignalAssessmentBuilder
    (sab_direction self) (sab_strength self) c
    (sab_time_horizon_slots self) (sab_valid_until_slot self)
    (sab_generated_at_slot self)
    (sab_risk_score self) (sab_suggested_size_bps self)
    (sab_model_version self) (sab_model_params_hash self).

(** [build] always emits [{"long": {}}] for the direction. *)
Definition sab_build (self : SignalAssessmentBuilder) : SignalAssessment :=
  mkSignalAssessment Long
    (sab_strength self) (sab_confidence self) (sab_time_horizon_slots self)
    (sab_valid_until_slot self) (sab_generated_at_slot self)
    (sab_risk_score self) (sab_suggested_size_bps self)
    (sab_model_version self) (sab_model_params_hash self) (zero_bytes 16).

(** *** [TeeReceiptBuilder] *)
Record TeeReceiptBuilder := mkTeeReceiptBuilder {
  trb_mr_enclave : bytes;
  trb_mr_signer : bytes;
  trb_enclave_keypair : Keypair;
  trb_attestation_timestamp : Z;
  trb_platform : Z;
  trb_svn : Z
}.

(** Construction with [__post_init__]: a missing key pair is replaced by a
    freshly generated one, [fresh] standing for the result of [Keypair()]. *)
Definition TeeReceiptBuilder_new (fresh : Keypair)
  (enclave_keypair : option Keypair) : TeeReceiptBuilder :=
  mkTeeReceiptBuilder (zero_bytes 32) (zero_bytes 32)
    (match enclave_keypair with Some kp => kp | None => fresh end) 0 1 1.

Definition with_enclave (self : TeeReceiptBuilder) (mr : bytes)
  : TeeReceiptBuilder :=
  mkTeeReceiptBuilder mr (trb_mr_signer self) (trb_enclave_keypair self)
    (trb_attestation_timestamp self) (trb_platform self) (trb_svn self).

(** [sign] only stamps the builder with the current time. *)
Definition sign (now : Z) (self : TeeReceiptBuilder) (signal_id : bytes)
  (market_context : MarketContext) (assessment : SignalAssessment)
  : TeeReceiptBuilder :=
  mkTeeReceiptBuilder (trb_mr_enclave self) (trb_mr_signer self)
    (trb_enclave_keypair self) now (trb_platform self) (trb_svn self).

Definition _compute_message (signal_id : bytes) (provider : Pubkey) : bytes :=
  sha256 (signal_id ++ pubkey_bytes provider).

Definition _compute_report_data (signal_id : bytes) (provider : Pubkey) : bytes :=
  let h := sha256 (signal_id ++ pubkey_bytes provider) in
  h ++ zero_bytes 32.

Section Build.

(** [Keypair.sign_message], supplied by the [solders] library. *)
Variable sign_message : Keypair -> bytes -> bytes.

Definition trb_build (now : Z) (self : TeeReceiptBuilder)
  (signal_id : bytes) (provider : Pubkey) : TeeReceipt :=
  let message := _compute_message signal_id provider in
  let signature := sign_message (trb_enclave_keypair self) message in
  let report_data := _compute_report_data signal_id provider in
  mkTeeReceipt
    (trb_mr_enclave self) (trb_mr_signer self)
    signature (pubkey_bytes (pubkey (trb_enclave_keypair self)))
    report_data
    (if trb_attestation_timestamp self =? 0 then now
     else trb_attestation_timestamp self)
    Tee.AMD_SEV_SNP (trb_svn self) (zero_bytes 13).

End Build.

End TestSignalOracle.

(** ** The on-chain verification engine

    The Anchor program driven by the integration tests is not among the
    Python sources; every definition of this module is written down from
    the specification (sections 3, 4 and 7). Identities and signal ids are
    32-byte strings. *)
Module Engine.

(** Modelled from the spec: the error taxonomy of section 7 (the on-chain
    error enum is missing). *)
Inductive Error :=
| Unauthorized
| AlreadyInitialized | AlreadyRegistered | SignalAlreadyExists
| SignalNotFound | AlreadyRevoked | InvalidUpdate
| ProtocolPaused | ProviderNotActive | InsufficientSources
| ConfidenceBelowMinimum | ValidityPeriodTooShort | ValidityPeriodTooLong
| SignalExpired
| EnclaveNotAllowed | ReportDataMismatch | SignatureInvalid | AttestationStale
| AllowlistFull | EnclaveAlreadyAllowed.

Inductive result (A : Type) : Type :=
| Ok (a : A)
| Err (e : Error).
Arguments Ok {A} a.
Arguments Err {A} e.

Definition is_ok {A} (r : result A) : bool :=
  match r with Ok _ => true | Err _ => false end.

Definition and_then {A B} (r : result A) (k : A -> result B) : result B :=
  match r with
  | Ok a => k a
  | Err e => Err e
  end.

(** Fail-fast precondition: the first violated guard decides the error. *)
Definition ensure (b : bool) (e : Error) : result unit :=
  if b then Ok tt else Err e.

Notation "'check' b 'else' e ; k" := (and_then (ensure b e) (fun _ => k))
  (at level 10, b at level 99, e at level 99, k at level 200).
Notation "'let*' x := r ; k" := (and_then r (fun x => k))
  (at level 10, x name, r at level 99, k at level 200).

(** Modelled from the spec: the GlobalConfig record of section 3 (the
    on-chain account layout is missing). *)
Record GlobalConfig := mkGlobalConfig {
  admin : bytes;
  min_validity_slots : Z;
  max_validity_slots : Z;
  min_source_count : Z;
  min_confidence : Z;
  is_paused : bool
}.

(** Modelled from the spec: the ProviderRegistry record of section 3 (the
    on-chain account layout is missing). *)
Record ProviderRegistry := mkProviderRegistry {
  authority : bytes;
  is_active : bool;
  signal_count : Z;
  allowed_enclaves : list bytes
}.

(** Modelled from the spec: the SignalAccount record of section 3 (the
    on-chain account layout is missing). *)
Record SignalAccount := mkSignalAccount {
  provider : bytes;
  signal_id : bytes;
  market_context : MarketContext;
  signal_assessment : SignalAssessment;
  tee_receipt : TeeReceipt;
  status : Status
}.

(** Modelled from the spec: the persisted state, one optional policy
    record, one registry per provider authority and one signal record per
    (provider, signal_id) (the account storage of the program is
    missing). *)
Record World := mkWorld {
  config : option GlobalConfig;
  providers : gmap bytes ProviderRegistry;
  signals : gmap (bytes * bytes) SignalAccount
}.

Definition empty_world : World := mkWorld None ∅ ∅.

(** Modelled from the spec: [compute_binding_hash] of section 4.1, the
    digest of [signal_id || submitter_identity] (the on-chain
    [construct_signing_message] is missing); the digest is the SHA-256 the
    receipt builder of the tests uses. *)
Definition compute_binding_hash (signal_id submitter_identity : bytes) : bytes :=
  sha256 (signal_id ++ submitter_identity).

(** Modelled from the spec: [build_report_data] of section 4.1, the
    binding hash followed by 32 zero bytes. *)
Definition build_report_data (binding_hash : bytes) : bytes :=
  binding_hash ++ zero_bytes 32.

(** Modelled from the spec: step 2 of [verify_receipt], the report-data
    check on its own. *)
Definition report_data_matches (receipt : TeeReceipt)
  (signal_id submitter_identity : bytes) : bool :=
  let expected_hash := compute_binding_hash signal_id submitter_identity in
  bool_decide (take 32 (report_data receipt) = expected_hash)
  && bool_decide (drop 32 (report_data receipt) = zero_bytes 32).

(** Modelled from the spec: the derived, non-persisted Expired view of
    section 4.4. *)
Definition is_expired (acct : SignalAccount) (current_slot : Z) : bool :=
  valid_until_slot (signal_assessment acct) <? current_slot.

Section Engine.

(** The detached-signature verification of the host cryptography
    library: public key, message, signature. *)
Variable sig_verify : bytes -> bytes -> bytes -> bool.

(** The attestation freshness bound; [None] is the default of no
    bound. *)
Variable freshness_bound : option Z.

(** The configured capacity of an enclave allowlist. *)
Variable max_enclaves : nat.

(** Modelled from the spec: [verify_receipt] of section 4.1, steps 1 to
    5 in order (the on-chain verifier is missing). *)
Definition verify_receipt (receipt : TeeReceipt)
  (signal_id submitter_identity : bytes) (allowed : list bytes)
  (current_time : Z) : result unit :=
  check bool_decide (mr_enclave receipt ∈ allowed) else EnclaveNotAllowed;
  check report_data_matches receipt signal_id submitter_identity
    else ReportDataMismatch;
  check sig_verify (enclave_pubkey receipt)
          (compute_binding_hash signal_id submitter_identity)
          (enclave_signature receipt)
    else SignatureInvalid;
  check match freshness_bound with
        | None => true
        | Some bound =>
            current_time - attestation_timestamp receipt <=? bound
        end
    else AttestationStale;
  Ok tt.

(** Modelled from the spec: preconditions 4 to 7 of [submit_signal]
    (section 4.4), which [update_signal] re-runs on the new payload. *)
Definition check_policy (cfg : GlobalConfig) (mc : MarketContext)
  (sa : SignalAssessment) (current_slot : Z) : result unit :=
  check min_source_count cfg <=? source_count mc else InsufficientSources;
  check min_confidence cfg <=? confidence sa else ConfidenceBelowMinimum;
  let w := valid_until_slot sa - generated_at_slot sa in
  check min_validity_slots cfg <=? w else ValidityPeriodTooShort;
  check w <=? max_validity_slots cfg else ValidityPeriodTooLong;
  check current_slot <? valid_until_slot sa else SignalExpired;
  Ok tt.

(** Modelled from the spec: preconditions 1 and 2, shared by
    [submit_signal] and [update_signal]: an unpaused policy record and
    a registered, active provider. *)
Definition admit_provider (w : World) (caller : bytes)
  : result (GlobalConfig * ProviderRegistry) :=
  match config w with
  | None => Err ProtocolPaused
  | Some cfg =>
      check negb (is_paused cfg) else ProtocolPaused;
      match providers w !! caller with
      | None => Err ProviderNotActive
      | Some reg =>
          check is_active reg else ProviderNotActive;
          Ok (cfg, reg)
      end
  end.

(** Modelled from the spec: [initialize] of section 4.2. *)
Definition initialize (w : World) (adm : bytes)
  (min_validity max_validity min_sources min_conf : Z) : result World :=
  match config w with
  | Some _ => Err AlreadyInitialized
  | None =>
      Ok (mkWorld
            (Some (mkGlobalConfig adm min_validity max_validity
                     min_sources min_conf false))
            (providers w) (signals w))
  end.

(** Modelled from the spec: [set_paused] of section 4.2; without a
    policy record nobody is the admin. *)
Definition set_paused (w : World) (caller : bytes) (value : bool)
  : result World :=
  match config w with
  | None => Err Unauthorized
  | Some cfg =>
      check bool_decide (caller = admin cfg) else Unauthorized;
      Ok (mkWorld
            (Some (mkGlobalConfig (admin cfg) (min_validity_slots cfg)
                     (max_validity_slots cfg) (min_source_count cfg)
                     (min_confidence cfg) value))
            (providers w) (signals w))
  end.

(** Modelled from the spec: [register] of section 4.3; the display name
    is not part of the persisted record of section 3. *)
Definition register (w : World) (auth display_name initial_enclave : bytes)
  : result World :=
  match providers w !! auth with
  | Some _ => Err AlreadyRegistered
  | None =>
      Ok (mkWorld (config w)
            (<[auth := mkProviderRegistry auth true 0 [initial_enclave]]>
               (providers w))
            (signals w))
  end.

(** Modelled from the spec: [add_enclave] of section 4.3 on the registry
    of [owner]; a missing registry has no authority the caller could
    be. *)
Definition add_enclave (w : World) (caller owner new_enclave : bytes)
  : result World :=
  match providers w !! owner with
  | None => Err Unauthorized
  | Some reg =>
      check bool_decide (caller = authority reg) else Unauthorized;
      check bool_decide (length (allowed_enclaves reg) < max_enclaves)%nat
        else AllowlistFull;
      check negb (bool_decide (new_enclave ∈ allowed_enclaves reg))
        else EnclaveAlreadyAllowed;
      Ok (mkWorld (config w)
            (<[owner := mkProviderRegistry (authority reg) (is_active reg)
                          (signal_count reg)
                          (allowed_enclaves reg ++ [new_enclave])]>
               (providers w))
            (signals w))
  end.

Definition is_admin (w : World) (caller : bytes) : bool :=
  match config w with
  | Some cfg => bool_decide (caller = admin cfg)
  | None => false
  end.

(** Modelled from the spec: [deactivate] of section 4.3 on the registry
    of [owner]. *)
Definition deactivate (w : World) (caller owner : bytes) : result World :=
  match providers w !! owner with
  | None => Err Unauthorized
  | Some reg =>
      check bool_decide (caller = authority reg) || is_admin w caller
        else Unauthorized;
      Ok (mkWorld (config w)
            (<[owner := mkProviderRegistry (authority reg) false
                          (signal_count reg) (allowed_enclaves reg)]>
               (providers w))
            (signals w))
  end.

(** Modelled from the spec: [submit_signal] of section 4.4,
    preconditions 1 to 8 in order, then the record is persisted as
    Active and the provider's signal count incremented. *)
Definition submit_signal (w : World) (caller sid : bytes)
  (mc : MarketContext) (sa : SignalAssessment) (receipt : TeeReceipt)
  (current_slot current_time : Z) : result World :=
  let* cr := admit_provider w caller;
  let (cfg, reg) := cr in
  check negb (bool_decide (is_Some (signals w !! (caller, sid))))
    else SignalAlreadyExists;
  let* _ := check_policy cfg mc sa current_slot;
  let* _ := verify_receipt receipt sid caller (allowed_enclaves reg)
              current_time;
  Ok (mkWorld (config w)
        (<[caller := mkProviderRegistry (authority reg) (is_active reg)
                       (signal_count reg + 1) (allowed_enclaves reg)]>
           (providers w))
        (<[(caller, sid) := mkSignalAccount caller sid mc sa receipt Active]>
           (signals w))).

(** Modelled from the spec: [update_signal] of section 4.4 on the record
    of [(owner, sid)], in the order the spec lists the checks:
    preconditions 1 and 2, the inverted existing-record check with
    ownership, preconditions 4 to 8 on the new payload, and last the Active
    status; the payload is replaced wholesale. *)
Definition update_signal (w : World) (caller owner sid : bytes)
  (mc : MarketContext) (sa : SignalAssessment) (receipt : TeeReceipt)
  (current_slot current_time : Z) : result World :=
  let* cr := admit_provider w caller;
  let (cfg, reg) := cr in
  match signals w !! (owner, sid) with
  | None => Err SignalNotFound
  | Some acct =>
      check bool_decide (provider acct = caller) else Unauthorized;
      let* _ := check_policy cfg mc sa current_slot;
      let* _ := verify_receipt receipt sid caller (allowed_enclaves reg)
                  current_time;
      check match status acct with Active => true | Revoked => false end
        else InvalidUpdate;
      Ok (mkWorld (config w) (providers w)
            (<[(owner, sid) := mkSignalAccount (provider acct)
                                 (signal_id acct) mc sa receipt Active]>
               (signals w)))
  end.

(** Modelled from the spec: [revoke_signal] of section 4.4 on the record
    of [(owner, sid)]: only the owning authority, and only once. *)
Definition revoke_signal (w : World) (caller owner sid : bytes)
  : result World :=
  match signals w !! (owner, sid) with
  | None => Err SignalNotFound
  | Some acct =>
      check bool_decide (provider acct = caller) else Unauthorized;
      check match status acct with Active => true | Revoked => false end
        else AlreadyRevoked;
      Ok (mkWorld (config w) (providers w)
            (<[(owner, sid) := mkSignalAccount (provider acct)
                                 (signal_id acct) (market_context acct)
                                 (signal_assessment acct)
                                 (tee_receipt acct) Revoked]>
               (signals w)))
  end.

(** Modelled from the spec: the operations exposed to collaborators
    (section 6), each with the clock readings it consumes. *)
Inductive Op :=
| OpInitialize (adm : bytes) (min_validity max_validity min_sources min_conf : Z)
| OpSetPaused (caller : bytes) (value : bool)
| OpRegister (auth display_name initial_enclave : bytes)
| OpAddEnclave (caller owner new_enclave : bytes)
| OpDeactivate (caller owner : bytes)
| OpSubmit (caller sid : bytes) (mc : MarketContext) (sa : SignalAssessment)
    (receipt : TeeReceipt) (current_slot current_time : Z)
| OpUpdate (caller owner sid : bytes) (mc : MarketContext)
    (sa : SignalAssessment) (receipt : TeeReceipt)
    (current_slot current_time : Z)
| OpRevoke (caller owner sid : bytes).

Definition step (w : World) (op : Op) : result World :=
  match op with
  | OpInitialize a mn mx ms mc => initialize w a mn mx ms mc
  | OpSetPaused c v => set_paused w c v
  | OpRegister a n e => register w a n e
  | OpAddEnclave c o e => add_enclave w c o e
  | OpDeactivate c o => deactivate w c o
  | OpSubmit c s mc sa r sl t => submit_signal w c s mc sa r sl t
  | OpUpdate c o s mc sa r sl t => update_signal w c o s mc sa r sl t
  | OpRevoke c o s => revoke_signal w c o s
  end.

(** Modelled from the spec: every call is atomic (section 5): a failed
    operation leaves the persisted state as it was. *)
Definition apply_op (w : World) (op : Op) : World :=
  match step w op with
  | Ok w' => w'
  | Err _ => w
  end.

Definition run (w : World) (ops : list Op) : World :=
  fold_left apply_op ops w.

End Engine.

End Engine.

(** ** Byte strings as numbers (little endian), for counting arguments *)
Definition byte_of_N (n : N) : byte :=
  match Byte.of_N (n mod 256)%N with
  | Some b => b
  | None => x00
  end.

Fixpoint N_of_bytes (bs : bytes) : N :=
  match bs with
  | [] => 0%N
  | b :: bs' => (Byte.to_N b + 256 * N_of_bytes bs')%N
  end.

Fixpoint bytes_of_N (len : nat) (n : N) : bytes :=
  match len with
  | O => []
  | S len' => byte_of_N n :: bytes_of_N len' (n / 256)%N
  end.

(** ** A concrete deployment, following the integration tests *)
Module Scenario.
Import TestSignalOracle.

(** A toy detached signature: the signature is the public key followed by
    the message. *)
Definition toy_sign (kp : Keypair) (msg : bytes) : bytes :=
  pubkey_bytes (pubkey kp) ++ msg.

Definition toy_verify (pk msg sig : bytes) : bool :=
  bool_decide (sig = pk ++ msg).

Definition wallet : Pubkey := mkPubkey (replicate 32 x01).
Definition stranger : Pubkey := mkPubkey (replicate 32 x02).
Definition enclave_keys : Keypair :=
  mkKeypair (replicate 32 x0a) (mkPubkey (replicate 32 x0b)).

(** [test_mr_enclave] *)
Definition test_mr_enclave : bytes :=
  sha256 (bytes_of_string "test-enclave-v1").

Definition some_signal_id : bytes := sha256 (bytes_of_string "test-1").

Definition display_name : bytes :=
  bytes_of_string "TestProvider" ++ zero_bytes 20.

Definition current_slot : Z := 1000.
Definition current_time : Z := 1767225600.

Definition run := Engine.run toy_verify None 8.
Definition submit_signal := Engine.submit_signal toy_verify None.
Definition update_signal := Engine.update_signal toy_verify None.

(** [initialize_config] with the test constants, then
    [register_provider]. *)
Definition bootstrap : list (Engine.Op) :=
  [ Engine.OpInitialize (pubkey_bytes wallet) MIN_VALIDITY_SLOTS
      MAX_VALIDITY_SLOTS MIN_SOURCE_COUNT MIN_CONFIDENCE;
    Engine.OpRegister (pubkey_bytes wallet) display_name test_mr_enclave ].

Definition deployed : Engine.World := run Engine.empty_world bootstrap.

Definition deployed_config : Engine.GlobalConfig :=
  Engine.mkGlobalConfig (pubkey_bytes wallet) 10 1000 1 5000 false.

Definition deployed_registry : Engine.ProviderRegistry :=
  Engine.mkProviderRegistry (pubkey_bytes wallet) true 0 [test_mr_enclave].

Definition market : MarketContext :=
  mcb_build (mcb_with_slot current_time MarketContextBuilder_new current_slot).

Definition assessment (duration : Z) : SignalAssessment :=
  sab_build (with_validity SignalAssessmentBuilder_new current_slot duration).

Definition low_confidence : SignalAssessment :=
  sab_build (with_confidence
               (with_validity SignalAssessmentBuilder_new current_slot 100)
               1000).

Definition expired : SignalAssessment :=
  sab_build (with_expired SignalAssessmentBuilder_new current_slot).

Definition expired_low_confidence : SignalAssessment :=
  sab_build (with_confidence
               (with_expired SignalAssessmentBuilder_new current_slot) 1000).

Definition receipt_for (sid : bytes) (who : Pubkey) : TeeReceipt :=
  trb_build toy_sign current_time
    (with_enclave (TeeReceiptBuilder_new enclave_keys None) test_mr_enclave)
    sid who.

Definition other_signal_id : bytes := sha256 (bytes_of_string "test-2").




End Scenario.

(** ** [patch_idl.py] *)
Module PatchIdl.

(** A value returned by [json.load]: [None], a [bool], an [int], a [float]
    (kept as its literal), a [str], a [list] or a [dict]. A [dict] is the
    sequence of its items in insertion order. *)
#[local] Unset Elimination Schemes.
Inductive json : Type :=
| JNull
| JBool (b : bool)
| JInt (n : Z)
| JFloat (literal : string)
| JString (s : string)
| JArray (items : list json)
| JObject (members : list (string * json)).
#[local] Set Elimination Schemes.

Section Dict.
Context {V : Type}.

Definition dict_keys (obj : list (string * V)) : list string := map fst obj.

(** [obj.get(key)] *)
Fixpoint dict_get (key : string) (obj : list (string * V)) : option V :=
  match obj with
  | [] => None
  | (k, v) :: rest => if String.eqb key k then Some v else dict_get key rest
  end.

(** [key in obj] *)
Definition dict_contains (key : string) (obj : list (string * V)) : bool :=
  match dict_get key obj with
  | Some _ => true
  | None => false
  end.

(** [del obj[key]], for a key that is present. *)
Fixpoint dict_del (key : string) (obj : list (string * V)) : list (string * V) :=
  match obj with
  | [] => []
  | (k, v) :: rest =>
      if String.eqb key k then dict_del key rest
      else (k, v) :: dict_del key rest
  end.

(** [obj[key] = value]: an existing key keeps its place, a new one goes
    last. *)
Fixpoint dict_set (key : string) (value : V) (obj : list (string * V))
  : list (string * V) :=
  match obj with
  | [] => [(key, value)]
  | (k, v) :: rest =>
      if String.eqb key k then (k, value) :: rest
      else (k, v) :: dict_set key value rest
  end.

(** [obj.pop(key)], for a key that is present. *)
Definition dict_pop (key : string) (obj : list (string * V))
  : option (V * list (string * V)) :=
  match dict_get key obj with
  | Some v => Some (v, dict_del key obj)
  | None => None
  end.

(** [if old in obj: obj[new] = obj.pop(old)] *)
Definition rename_key (old new : string) (obj : list (string * V))
  : list (string * V) :=
  if dict_contains old obj then
    match dict_pop old obj with
    | Some (v, rest) => dict_set new v rest
    | None => obj
    end
  else obj.

(** [if key in obj: del obj[key]] *)
Definition drop_key (key : string) (obj : list (string * V))
  : list (string * V) :=
  if dict_contains key obj then dict_del key obj else obj.

(** The four statements of [strip_pda] on the keys of one dictionary, in
    the order of the source. *)
Definition strip_keys (obj : list (string * V)) : list (string * V) :=
  let obj := drop_key "pda" obj in
  let obj := rename_key "writable" "isMut" obj in
  let obj := rename_key "signer" "isSigner" obj in
  let obj := drop_key "docs" obj in
  obj.

Definition map_values {W : Type} (f : V -> W) (obj : list (string * V))
  : list (string * W) :=
  map (fun kv => (fst kv, f (snd kv))) obj.

End Dict.

(** [strip_pda(obj)]. The source edits the keys of a dictionary and then
    visits the values that are left; structural recursion visits the values
    first and edits the keys afterwards, which gives the same document since
    the edits look at keys only ([strip_pda_object] states the source's
    order). Values loaded by [json.load] share no structure, so the in-place
    update is a plain function of the document. *)
Fixpoint strip_pda (obj : json) : json :=
  match obj with
  | JObject members =>
      JObject (strip_keys (map (fun kv => (fst kv, strip_pda (snd kv))) members))
  | JArray items => JArray (map strip_pda items)
  | other => other
  end.

(** Whether some dictionary of the document, at any depth, has the key. *)
Fixpoint mentions (key : string) (obj : json) : bool :=
  match obj with
  | JObject members =>
      dict_contains key members
      || existsb (fun kv => mentions key (snd kv)) members
  | JArray items => existsb (mentions key) items
  | _ => false
  end.

(** Whether every dictionary of the document has pairwise distinct keys, as
    every Python [dict] has. *)
Fixpoint well_formed (obj : json) : Prop :=
  match obj with
  | JObject members =>
      NoDup (dict_keys members)
      /\ fold_right (fun kv acc => well_formed (snd kv) /\ acc) True members
  | JArray items => fold_right (fun x acc => well_formed x /\ acc) True items
  | _ => True
  end.

Definition removed_keys : list string :=
  ["pda"; "writable"; "signer"; "docs"]%string.

Definition touched_keys : list string :=
  ["pda"; "writable"; "signer"; "docs"; "isMut"; "isSigner"]%string.

Definition is_touched (key : string) : bool :=
  existsb (String.eqb key) touched_keys.

(** The members whose keys [strip_pda] has no statement for. *)
Definition untouched {V : Type} (obj : list (string * V)) : list (string * V) :=
  List.filter (fun kv => negb (is_touched (fst kv))) obj.

(** A document that mentions none of the keys [strip_pda] removes. *)
Definition clean (obj : json) : bool :=
  forallb (fun key => negb (mentions key obj)) removed_keys.

(** The number of nested calls a call of [strip_pda] makes: one for the
    value itself and, below a container, as many as the deepest value it
    visits needs. The values visited in a dictionary are those left after
    the key edits. *)
Fixpoint frames (obj : json) : nat :=
  match obj with
  | JObject members =>
      S (fold_right Nat.max 0%nat
           (map snd
              (strip_keys (map (fun kv => (fst kv, frames (snd kv))) members))))
  | JArray items => S (fold_right Nat.max 0%nat (map frames items))
  | _ => 1%nat
  end.

(** A file as the process sees it: its text and whether it may be opened
    for reading and for writing. *)
Record File := mkFile {
  text : string;
  readable : bool;
  writable : bool
}.

(** The first [n] characters of a text. *)
Fixpoint prefix (n : nat) (s : string) : string :=
  match n, s with
  | S n', String c s' => String c (prefix n' s')
  | _, _ => EmptyString
  end.

(** What [json.load] makes of a text: a value, or the exception it
    raises. *)
Inductive Loaded :=
| Parsed (data : json)
| LoadError (exception : string).

(** A failure while the document is written to the file opened with mode
    [w]: how many characters reached the file and what is raised. *)
Record WriteFault := mkWriteFault {
  written : nat;
  exception_raised : string
}.

(** How a run of the script ends: it returns, it leaves through
    [sys.exit(status)], or an exception escapes. *)
Inductive Outcome :=
| Returned
| Exited (status : Z)
| Raised (exception : string).

(** What a run leaves behind: the lines printed, how it ended and the files
    by path. *)
Record Process := mkProcess {
  stdout : list string;
  outcome : Outcome;
  files : gmap string File
}.

Section Main.

(** [json.load] on the text of a file. *)
Variable json_load : string -> Loaded.

(** [json.dump(data, f, indent=2)] as the text written. *)
Variable json_dump : json -> string.

(** The number of nested calls the interpreter allows [strip_pda] before
    it raises [RecursionError]. *)
Variable recursion_limit : nat.

(** [main()] on [sys.argv] and the files it can reach; [fault] is what goes
    wrong while writing, if anything does. The file is read and closed,
    the document patched in memory, and then the file is opened with mode
    [w], which empties it before anything is written: a run that fails
    while writing leaves the beginning of the new text, possibly nothing.
    Opening fails, and changes nothing, on a missing or unreadable file
    and on a file that may not be written. *)
Definition main (fault : option WriteFault) (argv : list string)
  (fs : gmap string File) : Process :=
  if (length argv <? 2)%nat then
    mkProcess ["Usage: python patch_idl.py <idl_path>"%string] (Exited 1) fs
  else
    let path := nth 1 argv ""%string in
    match fs !! path with
    | None => mkProcess [] (Raised "FileNotFoundError") fs
    | Some file =>
        if negb (readable file) then
          mkProcess [] (Raised "PermissionError") fs
        else
          match json_load (text file) with
          | LoadError exception => mkProcess [] (Raised exception) fs
          | Parsed data =>
              if (recursion_limit <? frames data)%nat then
                mkProcess [] (Raised "RecursionError") fs
              else
                let data := strip_pda data in
                if negb (writable file) then
                  mkProcess [] (Raised "PermissionError") fs
                else
                  match fault with
                  | Some f =>
                      mkProcess [] (Raised (exception_raised f))
                        (<[path := mkFile
                                     (prefix (written f) (json_dump data))
                                     (readable file) (writable file)]> fs)
                  | None =>
                      mkProcess [String.append "Patched " path] Returned
                        (<[path := mkFile (json_dump data)
                                     (readable file) (writable file)]> fs)
                  end
          end
    end.

End Main.

End PatchIdl.

(** An instruction of an Anchor IDL, and a stand-in for the JSON codec that
    knows two texts. *)
Module IdlScenario.
Import PatchIdl.

Definition account (name : string) (extra : list (string * json)) : json :=
  JObject (("name"%string, JString name) :: extra).

Definition instruction : json :=
  JObject
    [ ("name", JString "submit_signal");
      ("docs", JArray [JString "Submit a signal"]);
      ("accounts",
       JArray
         [ account "config"
             [ ("pda", JObject [("seeds", JArray [JString "config"])]) ];
           account "signal_account"
             [ ("writable", JBool true);
               ("pda", JObject [("seeds", JArray [JString "signal"])]) ];
           account "provider"
             [ ("writable", JBool true); ("signer", JBool true) ] ]);
      ("args", JArray []) ]%string.

Definition patched_instruction : json :=
  JObject
    [ ("name", JString "submit_signal");
      ("accounts",
       JArray
         [ account "config" [];
           account "signal_account" [ ("isMut", JBool true) ];
           account "provider"
             [ ("isMut", JBool true); ("isSigner", JBool true) ] ]);
      ("args", JArray []) ]%string.

Definition toy_load (text : string) : Loaded :=
  if String.eqb text "raw" then Parsed instruction
  else if String.eqb text "patched" then Parsed patched_instruction
  else LoadError "JSONDecodeError".

Definition toy_dump (data : json) : string :=
  if clean data then "patched"%string else "raw"%string.

Definition disk : gmap string File :=
  {[ "idl.json"%string := mkFile "raw" true true;
     "notes.txt"%string := mkFile "keep" true true ]}.


Definition toy_main := main toy_load toy_dump 100.

Definition argv : list string := ["patch_idl.py"; "idl.json"]%string.

End IdlScenario.

(** A record of the TEE module's logger at level WARNING. *)
Definition tee_warning (msg : string) : LogRecord :=
  mkLog "sso1.tee" WARNING msg.

(** * Properties *)

(** Digests are never unfolded by simplification. *)
Arguments sha256 : simpl never.
Arguments Engine.compute_binding_hash : simpl never.
Arguments Engine.report_data_matches : simpl never.
Arguments Engine.verify_receipt : simpl never.

(** Closed facts about the concrete deployment are settled by evaluation. *)
Ltac by_computation :=
  vm_compute; first [reflexivity | discriminate | congruence].

(** ** SHA-256 *)

(** The FIPS 180-4 test vectors: the empty message, the one-block message
    [abc] and the 56-byte two-block message. *)
Example sha256_empty :
  hex (sha256 []) =
  "e3b0c44298fc1c149afbf4c8996fb92427ae41e4649b934ca495991b7852b855"%string.
Proof. vm_compute. reflexivity. Qed.

Example sha256_abc :
  hex (sha256 (bytes_of_string "abc")) =
  "ba7816bf8f01cfea414140de5dae2223b00361a396177a9cb410ff61f20015ad"%string.
Proof. vm_compute. reflexivity. Qed.

Example sha256_two_blocks :
  hex (sha256 (bytes_of_string
         "abcdbcdecdefdefgefghfghighijhijkijkljklmklmnlmnomnopnopq")) =
  "248d6a61d20638b8e5c026930c3e6039a33ce45964ff2167f6ecedd419db06c1"%string.
Proof. vm_compute. reflexivity. Qed.

(** The derived constants agree with the published tables at both ends. *)
Example derived_constants :
  length SHA256.round_constants = 64%nat
  /\ head SHA256.round_constants = Some 0x428a2f98
  /\ last SHA256.round_constants = Some 0xc67178f2
  /\ head SHA256.initial_words = Some 0x6a09e667
  /\ last SHA256.initial_words = Some 0x5be0cd19.
Proof. split_and!; reflexivity. Qed.

Lemma output_length (h : SHA256.regs) : length (SHA256.output h) = 32%nat.
Proof. reflexivity. Qed.

(** A digest is always 32 bytes long. *)
Lemma sha256_length (msg : bytes) : length (sha256 msg) = 32%nat.
Proof. unfold sha256, SHA256.digest. apply output_length. Qed.

Lemma zero_bytes_length (n : nat) : length (zero_bytes n) = n.
Proof. unfold zero_bytes. apply length_replicate. Qed.

(** Concatenation of fixed-width fields is injective. *)
Lemma app_inj_length (a b a' b' : bytes) :
  length a = length a' -> a ++ b = a' ++ b' -> a = a' /\ b = b'.
Proof.
  revert a'. induction a as [|x a IH]; intros [|x' a'] Hlen Heq;
    simpl in *; try discriminate.
  - split; [reflexivity | assumption].
  - injection Heq as -> Heq. injection Hlen as Hlen.
    destruct (IH a' Hlen Heq) as [-> ->]. split; reflexivity.
Qed.

(** ** The attestation binding built by the tests *)
Section Binding.
Import TestSignalOracle.

(** The two halves of the report data. *)
Lemma report_data_split (signal_id : bytes) (provider : Pubkey) :
  take 32 (_compute_report_data signal_id provider)
    = _compute_message signal_id provider
  /\ drop 32 (_compute_report_data signal_id provider) = zero_bytes 32.
Proof.
  unfold _compute_report_data, _compute_message. cbv zeta.
  pose proof (sha256_length (signal_id ++ pubkey_bytes provider)) as Hlen.
  rewrite take_app_length', drop_app_length' by (symmetry; assumption).
  split; reflexivity.
Qed.

(** C1. The binding message of a submission is the SHA-256 digest of
    [signal_id || bytes(provider)], in this order; it is 32 bytes long, it
    is a function of its two inputs (equal inputs give equal digests), it
    is the value placed at the front of [report_data], and it is the
    binding hash the verifier recomputes. *)
Theorem C1_binding_hash_is_sha256 (signal_id : bytes) (provider : Pubkey) :
  _compute_message signal_id provider
    = sha256 (signal_id ++ pubkey_bytes provider)
  /\ length (_compute_message signal_id provider) = 32%nat
  /\ (forall signal_id' provider',
        signal_id' = signal_id -> provider' = provider ->
        _compute_message signal_id' provider'
          = _compute_message signal_id provider)
  /\ take 32 (_compute_report_data signal_id provider)
       = _compute_message signal_id provider
  /\ Engine.compute_binding_hash signal_id (pubkey_bytes provider)
       = _compute_message signal_id provider.
Proof.
  unfold _compute_message, _compute_report_data, Engine.compute_binding_hash.
  split_and!.
  - reflexivity.
  - apply sha256_length.
  - intros ? ? -> ->. reflexivity.
  - rewrite take_app_length'; [reflexivity | symmetry; apply sha256_length].
  - reflexivity.
Qed.

(** The binding message of a 32-byte signal id [01..01] and a 32-byte
    provider key [02..02], as [hashlib] computes it. *)
Example binding_hash_known_answer :
  hex (_compute_message (replicate 32 x01) (mkPubkey (replicate 32 x02))) =
  "f818afd37a6dc3bc92fb44731011277006db4efa6e9023cd7468c02335d22a4d"%string.
Proof. vm_compute. reflexivity. Qed.

(** The order of the two fields matters: swapping them changes the
    digest. *)
Example binding_hash_order_matters :
  _compute_message (replicate 32 x01) (mkPubkey (replicate 32 x02))
    <> _compute_message (replicate 32 x02) (mkPubkey (replicate 32 x01)).
Proof. vm_compute. discriminate. Qed.

(** C2. The report data of a submission is 64 bytes long: the 32-byte
    binding hash in bytes 0..31, then 32 zero bytes in bytes 32..63. *)
Theorem C2_report_data_layout (signal_id : bytes) (provider : Pubkey) :
  let binding_hash := _compute_message signal_id provider in
  let report_data := _compute_report_data signal_id provider in
  length binding_hash = 32%nat
  /\ length report_data = 64%nat
  /\ take 32 report_data = binding_hash
  /\ drop 32 report_data = replicate 32 x00
  /\ (forall i : nat, (32 <= i < 64)%nat -> report_data !! i = Some x00)
  /\ report_data = Engine.build_report_data binding_hash
  /\ (forall h : bytes,
        length h = 32%nat ->
        length (Engine.build_report_data h) = 64%nat
        /\ take 32 (Engine.build_report_data h) = h
        /\ drop 32 (Engine.build_report_data h) = replicate 32 x00).
Proof.
  unfold _compute_message, _compute_report_data, Engine.build_report_data.
  cbv zeta.
  pose proof (sha256_length (signal_id ++ pubkey_bytes provider)) as Hlen.
  split_and!.
  - assumption.
  - rewrite length_app, Hlen, zero_bytes_length. reflexivity.
  - rewrite take_app_length' by (symmetry; assumption). reflexivity.
  - rewrite drop_app_length' by (symmetry; assumption). reflexivity.
  - intros i Hi. rewrite lookup_app_r by lia. rewrite Hlen.
    unfold zero_bytes. apply lookup_replicate_2. lia.
  - reflexivity.
  - intros h Hh. rewrite length_app, Hh, zero_bytes_length.
    rewrite take_app_length', drop_app_length' by (symmetry; assumption).
    split_and!; reflexivity.
Qed.

End Binding.

(** ** The off-chain attestation interface *)
Section Attester.
Import Tee.

Lemma get_report_returns (self : SevSnpAttester) (user_data : bytes)
  (log : Logging) :
  get_report self user_data log
    = (None, handle (mkLog "sso1.tee" WARNING "get_report: NOT IMPLEMENTED") log).
Proof. reflexivity. Qed.

Lemma get_measurement_returns (self : SevSnpAttester) (log : Logging) :
  get_measurement self log
    = (None,
       handle (mkLog "sso1.tee" WARNING "get_measurement: NOT IMPLEMENTED") log).
Proof. reflexivity. Qed.

(** C4. An unavailable SEV-SNP attester reports it: with [is_available]
    false, [get_report] returns [None] on every 64-byte user data and
    [get_measurement] returns [None]; no call yields a report or a
    measurement. *)
Theorem C4_unavailable_attester_returns_none (self : SevSnpAttester)
  (user_data : bytes) (log : Logging) :
  is_available self = false ->
  length user_data = 64%nat ->
  returned (get_report self user_data) log = None
  /\ returned (get_measurement self) log = None
  /\ (forall r, returned (get_report self user_data) log <> Some r)
  /\ (forall m, returned (get_measurement self) log <> Some m).
Proof.
  intros _ _. unfold returned.
  rewrite get_report_returns, get_measurement_returns. simpl.
  split_and!; try reflexivity; intros ?; discriminate.
Qed.

Lemma C4_unavailable_attester_witness :
  is_available (mkSevSnpAttester false) = false
  /\ returned (get_report (mkSevSnpAttester false) (zero_bytes 64)) verbose
     = None
  /\ returned (get_measurement (mkSevSnpAttester false)) verbose = None.
Proof.
  pose proof (C4_unavailable_attester_returns_none
                (mkSevSnpAttester false) (zero_bytes 64) verbose
                eq_refl eq_refl) as (Hr & Hm & _).
  split_and!; [reflexivity | exact Hr | exact Hm].
Defined.

(** C9. [hash_signal_data] hashes the plain concatenation of its two
    arguments: two splits of one byte string give the same digest. *)
Theorem C9_hash_signal_data_ignores_boundary (m s m' s' : bytes) :
  m ++ s = m' ++ s' ->
  hash_signal_data m s = hash_signal_data m' s'
  /\ length (hash_signal_data m s) = 32%nat.
Proof.
  intros Heq. unfold hash_signal_data. cbv zeta. rewrite Heq.
  split; [reflexivity | apply sha256_length].
Qed.

Lemma C9_hash_signal_data_witness :
  let m := bytes_of_string "ab" in
  let s := bytes_of_string "c" in
  let m' := bytes_of_string "a" in
  let s' := bytes_of_string "bc" in
  m <> m' /\ s <> s' /\ m ++ s = m' ++ s'
  /\ hash_signal_data m s = hash_signal_data m' s'.
Proof.
  cbv zeta. split_and!.
  - discriminate.
  - discriminate.
  - reflexivity.
  - apply (C9_hash_signal_data_ignores_boundary
             (bytes_of_string "ab") (bytes_of_string "c")
             (bytes_of_string "a") (bytes_of_string "bc")).
    reflexivity.
Defined.

Lemma detect_platform_returns (log : Logging) :
  detect_platform log
    = (UNKNOWN,
       handle (mkLog "sso1.tee" WARNING
                 "detect_platform: NOT IMPLEMENTED - returning UNKNOWN") log).
Proof. reflexivity. Qed.

(** C10. Attestation production is unavailable on every path:
    [detect_platform] returns [UNKNOWN], [get_attester] returns [None], a
    fresh [SevSnpAttester] has [is_available] false, and [get_report] and
    [get_measurement] return [None] for every attester and input. *)
Theorem C10_attestation_unavailable (log : Logging) :
  returned detect_platform log = UNKNOWN
  /\ returned get_attester log = None
  /\ is_available (returned SevSnpAttester_new log) = false
  /\ (forall self user_data log',
        returned (get_report self user_data) log' = None)
  /\ (forall self log', returned (get_measurement self) log' = None)
  /\ (forall user_data log',
        match returned get_attester log with
        | Some a => returned (get_report a user_data) log'
        | None => None
        end = None).
Proof.
  split_and!; reflexivity.
Qed.

(** What the handlers have seen after one more record. *)
Lemma records_handle (r : LogRecord) (log : Logging) :
  records (handle r log) = records log ++ List.filter (emits log) [r]
  /\ emits (handle r log) = emits log.
Proof.
  unfold handle. cbn [List.filter].
  destruct (emits log r); cbn [records emits].
  - split; reflexivity.
  - rewrite app_nil_r. split; reflexivity.
Qed.

(** [get_attester] hands over the warning of [detect_platform] and its
    own. *)
Lemma get_attester_log (log : Logging) :
  emitted get_attester log
    = records log
      ++ List.filter (emits log)
           [ mkLog "sso1.tee" WARNING
               "detect_platform: NOT IMPLEMENTED - returning UNKNOWN";
             mkLog "sso1.tee" WARNING "No TEE platform detected" ].
Proof.
  unfold emitted, get_attester, bind. rewrite detect_platform_returns.
  cbn [TeePlatform_eqb fst snd warning ret].
  destruct (records_handle
              (mkLog "sso1.tee" WARNING "No TEE platform detected")
              (handle (mkLog "sso1.tee" WARNING
                 "detect_platform: NOT IMPLEMENTED - returning UNKNOWN") log))
    as [-> Hemits].
  destruct (records_handle
              (mkLog "sso1.tee" WARNING
                 "detect_platform: NOT IMPLEMENTED - returning UNKNOWN") log)
    as [-> Hsame].
  rewrite Hsame, <- app_assoc. cbn [List.filter].
  destruct (emits log _), (emits log _); reflexivity.
Qed.

End Attester.

(** ** The verification engine *)

Section Admission.
Import Scenario Engine.

(** Preconditions 1 and 2 spelled out. *)
Lemma admit_provider_ok (w : World) (caller : bytes)
  (cfg : GlobalConfig) (reg : ProviderRegistry) :
  config w = Some cfg -> is_paused cfg = false ->
  providers w !! caller = Some reg -> is_active reg = true ->
  admit_provider w caller = Ok (cfg, reg).
Proof.
  intros Hc Hp Hr Ha. unfold admit_provider.
  rewrite Hc, Hp, Hr, Ha. reflexivity.
Qed.

(** A submission that passes preconditions 1 to 3 is decided by the
    policy checks and the attestation check. *)
Lemma submit_signal_admitted sig_verify freshness_bound
  (w : World) (caller sid : bytes) (mc : MarketContext)
  (sa : SignalAssessment) (receipt : TeeReceipt) (slot time : Z)
  (cfg : GlobalConfig) (reg : ProviderRegistry) :
  config w = Some cfg -> is_paused cfg = false ->
  providers w !! caller = Some reg -> is_active reg = true ->
  signals w !! (caller, sid) = None ->
  submit_signal sig_verify freshness_bound w caller sid mc sa receipt slot time
  = (let* _ := check_policy cfg mc sa slot;
     let* _ := verify_receipt sig_verify freshness_bound receipt sid caller
                 (allowed_enclaves reg) time;
     Ok (mkWorld (config w)
           (<[caller := mkProviderRegistry (authority reg) (is_active reg)
                          (signal_count reg + 1) (allowed_enclaves reg)]>
              (providers w))
           (<[(caller, sid) := mkSignalAccount caller sid mc sa receipt Active]>
              (signals w)))).
Proof.
  intros Hc Hp Hr Ha Hs. unfold submit_signal.
  rewrite (admit_provider_ok w caller cfg reg Hc Hp Hr Ha). simpl.
  rewrite Hs. rewrite bool_decide_eq_false_2 by (intros [? ?]; discriminate).
  reflexivity.
Qed.

(** The policy checks, one outcome per case. *)
Lemma check_policy_cases (cfg : GlobalConfig) (mc : MarketContext)
  (sa : SignalAssessment) (slot : Z) :
  let w := valid_until_slot sa - generated_at_slot sa in
  check_policy cfg mc sa slot =
    if negb (min_source_count cfg <=? source_count mc)
    then Err InsufficientSources
    else if negb (min_confidence cfg <=? confidence sa)
    then Err ConfidenceBelowMinimum
    else if negb (min_validity_slots cfg <=? w)
    then Err ValidityPeriodTooShort
    else if negb (w <=? max_validity_slots cfg)
    then Err ValidityPeriodTooLong
    else if negb (slot <? valid_until_slot sa)
    then Err SignalExpired
    else Ok tt.
Proof.
  unfold check_policy. cbv zeta.
  repeat (match goal with
          | |- context [ensure ?b _] => destruct b; simpl
          end; try reflexivity).
Qed.

(** C6. With the validity bounds 10 and 1000, a submission of width 5 is
    rejected with ValidityPeriodTooShort, one of width 2000 with
    ValidityPeriodTooLong, and one of width 100 is accepted, the other
    preconditions being satisfied. *)
Theorem C6_validity_bounds sig_verify freshness_bound
  (w : World) (caller sid : bytes) (mc : MarketContext)
  (sa : SignalAssessment) (receipt : TeeReceipt) (slot time : Z)
  (cfg : GlobalConfig) (reg : ProviderRegistry) :
  config w = Some cfg -> is_paused cfg = false ->
  providers w !! caller = Some reg -> is_active reg = true ->
  signals w !! (caller, sid) = None ->
  min_source_count cfg <= source_count mc ->
  min_confidence cfg <= confidence sa ->
  min_validity_slots cfg = 10 -> max_validity_slots cfg = 1000 ->
  let width := valid_until_slot sa - generated_at_slot sa in
  let outcome := submit_signal sig_verify freshness_bound w caller sid
                   mc sa receipt slot time in
  (width = 5 -> outcome = Err ValidityPeriodTooShort)
  /\ (width = 2000 -> outcome = Err ValidityPeriodTooLong)
  /\ (width = 100 ->
      slot < valid_until_slot sa ->
      verify_receipt sig_verify freshness_bound receipt sid caller
        (allowed_enclaves reg) time = Ok tt ->
      exists w', outcome = Ok w'
        /\ signals w' !! (caller, sid)
           = Some (mkSignalAccount caller sid mc sa receipt Active)).
Proof.
  intros Hc Hp Hr Ha Hs Hsrc Hconf Hmin Hmax width outcome.
  subst outcome.
  rewrite (submit_signal_admitted _ _ w caller sid mc sa receipt slot time
             cfg reg Hc Hp Hr Ha Hs).
  rewrite check_policy_cases. cbv zeta. fold width.
  rewrite Hmin, Hmax.
  replace (min_source_count cfg <=? source_count mc) with true
    by (symmetry; apply Z.leb_le; assumption).
  replace (min_confidence cfg <=? confidence sa) with true
    by (symmetry; apply Z.leb_le; assumption).
  simpl negb. cbv iota.
  split_and!.
  - intros ->. reflexivity.
  - intros ->. reflexivity.
  - intros -> Hslot Hver. simpl.
    replace (slot <? valid_until_slot sa) with true
      by (symmetry; apply Z.ltb_lt; assumption).
    simpl. rewrite Hver. simpl.
    eexists. split; [reflexivity |]. simpl. apply lookup_insert_eq.
Qed.

Lemma C6_validity_bounds_witness :
  let submit d :=
    Scenario.submit_signal deployed (pubkey_bytes wallet) some_signal_id
      market (assessment d) (receipt_for some_signal_id wallet)
      current_slot current_time in
  submit 5 = Err ValidityPeriodTooShort
  /\ submit 2000 = Err ValidityPeriodTooLong
  /\ is_ok (submit 100) = true.
Proof.
  cbv zeta.
  pose proof (fun d =>
    C6_validity_bounds toy_verify None deployed (pubkey_bytes wallet)
      some_signal_id market (assessment d)
      (receipt_for some_signal_id wallet) current_slot current_time
      deployed_config deployed_registry
      ltac:(by_computation) ltac:(by_computation) ltac:(by_computation)
      ltac:(by_computation) ltac:(by_computation) ltac:(by_computation)
      ltac:(by_computation) ltac:(by_computation) ltac:(by_computation))
    as H.
  split_and!.
  - apply (H 5). by_computation.
  - apply (H 2000). by_computation.
  - destruct (H 100) as (_ & _ & Hok).
    destruct Hok as (w' & Heq & _); [by_computation ..|].
    unfold Scenario.submit_signal. rewrite Heq. reflexivity.
Defined.

(** The attestation check fails with attestation errors only. *)
Lemma verify_receipt_errors sig_verify freshness_bound
  (receipt : TeeReceipt) (sid who : bytes) (allowed : list bytes)
  (time : Z) (e : Error) :
  verify_receipt sig_verify freshness_bound receipt sid who allowed time
    = Err e ->
  e = EnclaveNotAllowed \/ e = ReportDataMismatch
  \/ e = SignatureInvalid \/ e = AttestationStale.
Proof.
  unfold verify_receipt, and_then, ensure.
  repeat (match goal with
          | |- context [if ?b then Ok tt else Err _] => destruct b
          end; cbv beta iota);
    intros [= <-]; tauto.
Qed.

(** C7. With [min_confidence = 5000], a submission of confidence 1000 is
    rejected with ConfidenceBelowMinimum; one of confidence 8000 passes
    the confidence check, and is accepted when the other preconditions
    are satisfied. *)
Theorem C7_confidence_gate sig_verify freshness_bound
  (w : World) (caller sid : bytes) (mc : MarketContext)
  (sa : SignalAssessment) (receipt : TeeReceipt) (slot time : Z)
  (cfg : GlobalConfig) (reg : ProviderRegistry) :
  config w = Some cfg -> is_paused cfg = false ->
  providers w !! caller = Some reg -> is_active reg = true ->
  signals w !! (caller, sid) = None ->
  min_source_count cfg <= source_count mc ->
  min_confidence cfg = 5000 ->
  let width := valid_until_slot sa - generated_at_slot sa in
  let outcome := submit_signal sig_verify freshness_bound w caller sid
                   mc sa receipt slot time in
  (confidence sa = 1000 -> outcome = Err ConfidenceBelowMinimum)
  /\ (confidence sa = 8000 ->
      outcome <> Err ConfidenceBelowMinimum
      /\ (min_validity_slots cfg <= width <= max_validity_slots cfg ->
          slot < valid_until_slot sa ->
          verify_receipt sig_verify freshness_bound receipt sid caller
            (allowed_enclaves reg) time = Ok tt ->
          exists w', outcome = Ok w'
            /\ signals w' !! (caller, sid)
               = Some (mkSignalAccount caller sid mc sa receipt Active))).
Proof.
  intros Hc Hp Hr Ha Hs Hsrc Hmin width outcome.
  subst outcome.
  rewrite (submit_signal_admitted _ _ w caller sid mc sa receipt slot time
             cfg reg Hc Hp Hr Ha Hs).
  rewrite check_policy_cases. cbv zeta. fold width.
  rewrite Hmin.
  replace (min_source_count cfg <=? source_count mc) with true
    by (symmetry; apply Z.leb_le; assumption).
  simpl negb. cbv iota.
  split.
  - intros ->. reflexivity.
  - intros ->. simpl negb. cbv iota. split.
    + destruct (negb (min_validity_slots cfg <=? width)); [discriminate |].
      destruct (negb (width <=? max_validity_slots cfg)); [discriminate |].
      destruct (negb (slot <? valid_until_slot sa)); [discriminate |].
      simpl.
      destruct (verify_receipt _ _ _ _ _ _ _) as [[] | e] eqn:Hver;
        simpl; [discriminate |].
      apply verify_receipt_errors in Hver.
      intros [= ->]. destruct Hver as [H | [H | [H | H]]]; discriminate.
    + intros [Hlo Hhi] Hslot Hver.
      replace (min_validity_slots cfg <=? width) with true
        by (symmetry; apply Z.leb_le; assumption).
      replace (width <=? max_validity_slots cfg) with true
        by (symmetry; apply Z.leb_le; assumption).
      replace (slot <? valid_until_slot sa) with true
        by (symmetry; apply Z.ltb_lt; assumption).
      simpl. rewrite Hver. simpl.
      eexists. split; [reflexivity |]. simpl. apply lookup_insert_eq.
Qed.

Lemma C7_confidence_gate_witness :
  let submit sa :=
    Scenario.submit_signal deployed (pubkey_bytes wallet) some_signal_id
      market sa (receipt_for some_signal_id wallet)
      current_slot current_time in
  confidence low_confidence = 1000
  /\ submit low_confidence = Err ConfidenceBelowMinimum
  /\ confidence (assessment 100) = 8000
  /\ is_ok (submit (assessment 100)) = true.
Proof.
  cbv zeta.
  pose proof (fun sa =>
    C7_confidence_gate toy_verify None deployed (pubkey_bytes wallet)
      some_signal_id market sa
      (receipt_for some_signal_id wallet) current_slot current_time
      deployed_config deployed_registry
      ltac:(by_computation) ltac:(by_computation) ltac:(by_computation)
      ltac:(by_computation) ltac:(by_computation) ltac:(by_computation)
      ltac:(by_computation))
    as H.
  split_and!.
  - reflexivity.
  - apply (H low_confidence). reflexivity.
  - reflexivity.
  - destruct (H (assessment 100)) as (_ & Hpass).
    destruct Hpass as (_ & Hok); [reflexivity |].
    destruct Hok as (w' & Heq & _).
    + split; by_computation.
    + by_computation.
    + by_computation.
    + unfold Scenario.submit_signal. rewrite Heq. reflexivity.
Defined.

(** Every rejected call leaves the persisted state as it was. *)
Lemma apply_op_rejected sig_verify freshness_bound max_enclaves
  (w : World) (op : Op) (e : Error) :
  step sig_verify freshness_bound max_enclaves w op = Err e ->
  apply_op sig_verify freshness_bound max_enclaves w op = w.
Proof. intros H. unfold apply_op. rewrite H. reflexivity. Qed.

(** An already-expired payload never passes the policy checks. *)
Lemma check_policy_expired (cfg : GlobalConfig) (mc : MarketContext)
  (sa : SignalAssessment) (slot : Z) :
  valid_until_slot sa <= slot ->
  exists e, check_policy cfg mc sa slot = Err e.
Proof.
  intros Hexp. rewrite check_policy_cases. cbv zeta.
  replace (slot <? valid_until_slot sa) with false
    by (symmetry; apply Z.ltb_ge; assumption).
  repeat (match goal with
          | |- context [if negb ?b then _ else _] => destruct b; simpl
          end; try (eexists; reflexivity)).
Qed.

Lemma submit_signal_expired sig_verify freshness_bound
  (w : World) (caller sid : bytes) (mc : MarketContext)
  (sa : SignalAssessment) (receipt : TeeReceipt) (slot time : Z) :
  valid_until_slot sa <= slot ->
  exists e, submit_signal sig_verify freshness_bound w caller sid
              mc sa receipt slot time = Err e.
Proof.
  intros Hexp. unfold submit_signal.
  destruct (admit_provider w caller) as [[cfg reg] | e]; simpl;
    [| eexists; reflexivity].
  destruct (bool_decide (is_Some (signals w !! (caller, sid)))); simpl;
    [eexists; reflexivity |].
  destruct (check_policy_expired cfg mc sa slot Hexp) as [e ->].
  simpl. eexists; reflexivity.
Qed.

(** C8 (as amended). A submission whose [valid_until_slot] is not after
    the current slot is always rejected and persists nothing; the error
    is SignalExpired whenever preconditions 1 to 6 hold, and the error of
    the first violated precondition otherwise: ProtocolPaused, then
    ProviderNotActive, SignalAlreadyExists, InsufficientSources,
    ConfidenceBelowMinimum, ValidityPeriodTooShort and
    ValidityPeriodTooLong, in this order. *)
Theorem C8_expired_submission_rejected sig_verify freshness_bound max_enclaves
  (w : World) (caller sid : bytes) (mc : MarketContext)
  (sa : SignalAssessment) (receipt : TeeReceipt) (slot time : Z) :
  valid_until_slot sa <= slot ->
  let width := valid_until_slot sa - generated_at_slot sa in
  let outcome := submit_signal sig_verify freshness_bound w caller sid
                   mc sa receipt slot time in
  (exists e, outcome = Err e)
  /\ apply_op sig_verify freshness_bound max_enclaves w
       (OpSubmit caller sid mc sa receipt slot time) = w
  /\ (forall cfg reg,
        config w = Some cfg -> is_paused cfg = false ->
        providers w !! caller = Some reg -> is_active reg = true ->
        signals w !! (caller, sid) = None ->
        min_source_count cfg <= source_count mc ->
        min_confidence cfg <= confidence sa ->
        min_validity_slots cfg <= width <= max_validity_slots cfg ->
        outcome = Err SignalExpired)
  /\ ((config w = None
       \/ exists cfg, config w = Some cfg /\ is_paused cfg = true) ->
      outcome = Err ProtocolPaused)
  /\ (forall cfg,
        config w = Some cfg -> is_paused cfg = false ->
        (providers w !! caller = None
         \/ exists reg,
              providers w !! caller = Some reg /\ is_active reg = false) ->
        outcome = Err ProviderNotActive)
  /\ (forall cfg reg,
        config w = Some cfg -> is_paused cfg = false ->
        providers w !! caller = Some reg -> is_active reg = true ->
        (is_Some (signals w !! (caller, sid)) ->
         outcome = Err SignalAlreadyExists)
        /\ (signals w !! (caller, sid) = None ->
            (source_count mc < min_source_count cfg ->
             outcome = Err InsufficientSources)
            /\ (min_source_count cfg <= source_count mc ->
                (confidence sa < min_confidence cfg ->
                 outcome = Err ConfidenceBelowMinimum)
                /\ (min_confidence cfg <= confidence sa ->
                    (width < min_validity_slots cfg ->
                     outcome = Err ValidityPeriodTooShort)
                    /\ (min_validity_slots cfg <= width ->
                        max_validity_slots cfg < width ->
                        outcome = Err ValidityPeriodTooLong))))).
Proof.
  intros Hexp width outcome. subst outcome.
  destruct (submit_signal_expired sig_verify freshness_bound
              w caller sid mc sa receipt slot time Hexp) as [e He].
  split_and!.
  - exists e. exact He.
  - apply (apply_op_rejected _ _ _ _ _ e). exact He.
  - intros cfg reg Hc Hp Hr Ha Hs Hsrc Hconf [Hlo Hhi].
    rewrite (submit_signal_admitted _ _ w caller sid mc sa receipt slot time
               cfg reg Hc Hp Hr Ha Hs).
    rewrite check_policy_cases. cbv zeta. fold width.
    rewrite (proj2 (Z.leb_le _ _) Hsrc), (proj2 (Z.leb_le _ _) Hconf),
      (proj2 (Z.leb_le _ _) Hlo), (proj2 (Z.leb_le _ _) Hhi),
      (proj2 (Z.ltb_ge _ _) Hexp).
    reflexivity.
  - intros [Hnone | (cfg & Hc & Hp)]; unfold submit_signal, admit_provider.
    + rewrite Hnone. reflexivity.
    + rewrite Hc, Hp. reflexivity.
  - intros cfg Hc Hp Hreg. unfold submit_signal, admit_provider.
    rewrite Hc, Hp. cbn [negb ensure and_then].
    destruct Hreg as [Hnone | (reg & Hr & Ha)].
    + rewrite Hnone. reflexivity.
    + rewrite Hr, Ha. reflexivity.
  - intros cfg reg Hc Hp Hr Ha. split.
    + intros Hsome. unfold submit_signal.
      rewrite (admit_provider_ok w caller cfg reg Hc Hp Hr Ha).
      cbn [and_then]. rewrite (bool_decide_eq_true_2 _ Hsome). reflexivity.
    + intros Hs.
      rewrite (submit_signal_admitted _ _ w caller sid mc sa receipt slot time
                 cfg reg Hc Hp Hr Ha Hs).
      rewrite check_policy_cases. cbv zeta. fold width. split.
      { intros Hsrc. rewrite (proj2 (Z.leb_gt _ _) Hsrc). reflexivity. }
      intros Hsrc. rewrite (proj2 (Z.leb_le _ _) Hsrc). cbn [negb]. split.
      { intros Hconf. rewrite (proj2 (Z.leb_gt _ _) Hconf). reflexivity. }
      intros Hconf. rewrite (proj2 (Z.leb_le _ _) Hconf). cbn [negb]. split.
      { intros Hlo. rewrite (proj2 (Z.leb_gt _ _) Hlo). reflexivity. }
      intros Hlo Hhi. rewrite (proj2 (Z.leb_le _ _) Hlo).
      rewrite (proj2 (Z.leb_gt _ _) Hhi). reflexivity.
Qed.

Lemma C8_expired_submission_witness :
  valid_until_slot expired <= current_slot
  /\ Scenario.submit_signal deployed (pubkey_bytes wallet) some_signal_id
       market expired (receipt_for some_signal_id wallet)
       current_slot current_time = Err SignalExpired
  /\ signals (apply_op toy_verify None 8 deployed
                (OpSubmit (pubkey_bytes wallet) some_signal_id market expired
                   (receipt_for some_signal_id wallet)
                   current_slot current_time))
       !! (pubkey_bytes wallet, some_signal_id) = None.
Proof.
  assert (Hexp : valid_until_slot expired <= current_slot)
    by by_computation.
  destruct (C8_expired_submission_rejected toy_verify None 8 deployed
              (pubkey_bytes wallet) some_signal_id market expired
              (receipt_for some_signal_id wallet) current_slot current_time
              Hexp) as (_ & Hsame & Hcode & _).
  split_and!.
  - exact Hexp.
  - assert (H1 : config deployed = Some deployed_config)
      by by_computation.
    assert (H3 : providers deployed !! pubkey_bytes wallet
                 = Some deployed_registry) by by_computation.
    assert (H5 : signals deployed !! (pubkey_bytes wallet, some_signal_id)
                 = None) by by_computation.
    assert (H6 : min_source_count deployed_config <= source_count market)
      by by_computation.
    assert (H7 : min_confidence deployed_config <= confidence expired)
      by by_computation.
    assert (H8 : min_validity_slots deployed_config
                 <= valid_until_slot expired - generated_at_slot expired
                 <= max_validity_slots deployed_config)
      by (split; by_computation).
    exact (Hcode deployed_config deployed_registry
             H1 eq_refl H3 eq_refl H5 H6 H7 H8).
  - rewrite Hsame. by_computation.
Defined.

(** C8 (as stated) fails: an expired submission that also violates an
    earlier precondition is rejected with that precondition's error. *)
Lemma C8_expired_low_confidence_counterexample :
  valid_until_slot expired_low_confidence <= current_slot
  /\ Scenario.submit_signal deployed (pubkey_bytes wallet) some_signal_id
       market expired_low_confidence (receipt_for some_signal_id wallet)
       current_slot current_time = Err ConfidenceBelowMinimum
  /\ Scenario.submit_signal deployed (pubkey_bytes wallet) some_signal_id
       market expired_low_confidence (receipt_for some_signal_id wallet)
       current_slot current_time <> Err SignalExpired.
Proof.
  split_and!.
  - by_computation.
  - by_computation.
  - by_computation.
Qed.

End Admission.

(** ** The signal lifecycle *)
Section Lifecycle.
Import Scenario Engine.






End Lifecycle.

(** ** Binding exclusivity *)
Section Counting.
Local Open Scope N_scope.

Lemma byte_to_N_inj (b b' : byte) : Byte.to_N b = Byte.to_N b' -> b = b'.
Proof.
  intros H. pose proof (Byte.of_to_N b) as Hb.
  rewrite H, Byte.of_to_N in Hb. congruence.
Qed.

Lemma byte_of_N_to_N (n : N) : Byte.to_N (byte_of_N n) = n mod 256.
Proof.
  unfold byte_of_N.
  destruct (Byte.of_N (n mod 256)) as [b |] eqn:E.
  - apply Byte.to_of_N. assumption.
  - apply Byte.of_N_None_iff in E.
    pose proof (N.mod_lt n 256 ltac:(discriminate)). lia.
Qed.

Lemma bytes_of_N_length (len : nat) (n : N) :
  length (bytes_of_N len n) = len.
Proof.
  revert n. induction len as [| len IH]; intros n; simpl;
    [reflexivity | f_equal; apply IH].
Qed.

Lemma N_of_bytes_of_N (len : nat) (n : N) :
  n < 256 ^ N.of_nat len -> N_of_bytes (bytes_of_N len n) = n.
Proof.
  revert n. induction len as [| len IH]; intros n Hn.
  - simpl in *. lia.
  - rewrite Nat2N.inj_succ, N.pow_succ_r' in Hn.
    cbn [bytes_of_N N_of_bytes].
    rewrite byte_of_N_to_N, IH.
    + pose proof (N.div_mod' n 256). lia.
    + apply N.Div0.div_lt_upper_bound; lia.
Qed.

Lemma N_of_bytes_bound (bs : bytes) :
  N_of_bytes bs < 256 ^ N.of_nat (length bs).
Proof.
  induction bs as [| b bs IH].
  - simpl. lia.
  - cbn [N_of_bytes length].
    rewrite Nat2N.inj_succ, N.pow_succ_r'.
    pose proof (Byte.to_N_bounded b). lia.
Qed.

Lemma N_of_bytes_inj (bs bs' : bytes) :
  length bs = length bs' -> N_of_bytes bs = N_of_bytes bs' -> bs = bs'.
Proof.
  revert bs'. induction bs as [| b bs IH]; intros [| b' bs'] Hlen Heq;
    try discriminate; [reflexivity |].
  cbn [N_of_bytes] in Heq. injection Hlen as Hlen.
  pose proof (Byte.to_N_bounded b). pose proof (Byte.to_N_bounded b').
  assert (Byte.to_N b = Byte.to_N b') as Hb by lia.
  assert (N_of_bytes bs = N_of_bytes bs') as Hr by lia.
  f_equal; [apply byte_to_N_inj; assumption | apply IH; assumption].
Qed.

(** A bounded search for a value among [f 0 .. f m]. *)
Lemma bounded_search (f : N -> N) (v m : N) :
  (exists i, i <= m /\ f i = v) \/ (forall i, i <= m -> f i <> v).
Proof.
  induction m as [| m IH] using N.peano_ind.
  - destruct (N.eq_dec (f 0) v) as [H | H].
    + left. exists 0. split; [lia | assumption].
    + right. intros i Hi. replace i with 0 by lia. assumption.
  - destruct IH as [(i & Hi & Hv) | Hnone].
    + left. exists i. split; [lia | assumption].
    + destruct (N.eq_dec (f (N.succ m)) v) as [H | H].
      * left. exists (N.succ m). split; [lia | assumption].
      * right. intros i Hi.
        destruct (N.eq_dec i (N.succ m)) as [-> | Hne]; [assumption |].
        apply Hnone. lia.
Qed.

(** The pigeonhole principle: [n + 1] values below [n] repeat. *)
Lemma pigeonhole (n : N) :
  forall f : N -> N,
    (forall i, i <= n -> f i < n) ->
    exists i j, i < j /\ j <= n /\ f i = f j.
Proof.
  induction n as [| n IH] using N.peano_ind; intros f Hf.
  - specialize (Hf 0 ltac:(lia)). lia.
  - destruct (bounded_search f (f (N.succ n)) n) as [(i & Hi & Hv) | Hnone].
    + exists i, (N.succ n). split_and!; [lia | lia | assumption].
    + set (v := f (N.succ n)) in *.
      destruct (IH (fun i => if f i <? v then f i else f i - 1))
        as (i & j & Hij & Hj & Heq).
      * intros i Hi.
        pose proof (Hf (N.succ n) ltac:(lia)) as Hv. fold v in Hv.
        specialize (Hf i ltac:(lia)). specialize (Hnone i Hi).
        destruct (N.ltb_spec (f i) v); lia.
      * exists i, j. split_and!; [assumption | lia |].
        pose proof (Hnone i ltac:(lia)). pose proof (Hnone j Hj).
        destruct (N.ltb_spec (f i) v); destruct (N.ltb_spec (f j) v); lia.
Qed.

(** There are more pairs of 32-byte strings than 32-byte digests: two
    distinct (signal id, identity) pairs share their SHA-256 binding
    hash. *)
Lemma binding_hash_collision :
  exists A X B Y : bytes,
    length A = 32%nat /\ length X = 32%nat
    /\ length B = 32%nat /\ length Y = 32%nat
    /\ (A, X) <> (B, Y)
    /\ sha256 (A ++ X) = sha256 (B ++ Y).
Proof.
  set (M := 256 ^ N.of_nat 32).
  assert (HM : 1 < M) by (vm_compute; reflexivity).
  set (left_of i := bytes_of_N 32 (i mod M)).
  set (right_of i := bytes_of_N 32 (i / M)).
  destruct (pigeonhole M
              (fun i => N_of_bytes (sha256 (left_of i ++ right_of i))))
    as (i & j & Hij & Hj & Heq).
  { intros i _.
    pose proof (N_of_bytes_bound (sha256 (left_of i ++ right_of i))) as Hb.
    rewrite sha256_length in Hb. exact Hb. }
  exists (left_of i), (right_of i), (left_of j), (right_of j).
  subst left_of right_of. cbv beta in *.
  rewrite !bytes_of_N_length.
  split_and!; [reflexivity | reflexivity | reflexivity | reflexivity | |].
  - intros Hpair.
    pose proof (f_equal (fun p => N_of_bytes (fst p)) Hpair) as Hl.
    pose proof (f_equal (fun p => N_of_bytes (snd p)) Hpair) as Hr.
    cbv beta in Hl, Hr. cbn [fst snd] in Hl, Hr.
    assert (Hdiv : forall k, k <= M -> k / M < M).
    { intros k Hk. apply N.Div0.div_lt_upper_bound; nia. }
    rewrite !N_of_bytes_of_N in Hl, Hr
      by first [ apply N.mod_lt; lia | apply Hdiv; lia ].
    pose proof (N.div_mod' i M). pose proof (N.div_mod' j M).
    rewrite Hl, Hr in *. lia.
  - apply N_of_bytes_inj; [| exact Heq].
    rewrite !sha256_length. reflexivity.
Qed.

End Counting.

Section Exclusivity.
Import Scenario TestSignalOracle Engine.

(** The binding hashes of distinct (signal id, provider) pairs are not
    always distinct; the counting argument names no such pair. *)
Lemma binding_hash_not_injective :
  ~ (forall A X B Y : bytes,
       length A = 32%nat -> length X = 32%nat ->
       length B = 32%nat -> length Y = 32%nat ->
       (A, X) <> (B, Y) ->
       _compute_message A (mkPubkey X) <> _compute_message B (mkPubkey Y)).
Proof.
  intros Hinj.
  destruct binding_hash_collision as (A & X & B & Y & HA & HX & HB & HY
                                      & Hne & Heq).
  exact (Hinj A X B Y HA HX HB HY Hne Heq).
Qed.

(** The report-data check accepts a built receipt exactly under the
    pairs that hash to the embedded value. *)
Lemma report_data_matches_built (receipt : TeeReceipt) (A B : bytes)
  (X : Pubkey) (Y : bytes) :
  report_data receipt = _compute_report_data A X ->
  report_data_matches receipt B Y
    = bool_decide (_compute_message A X = compute_binding_hash B Y).
Proof.
  intros Hrd. unfold report_data_matches. cbv zeta. rewrite Hrd.
  destruct (report_data_split A X) as (Htake & Hdrop).
  rewrite Htake, Hdrop.
  rewrite (bool_decide_eq_true_2 (zero_bytes 32 = zero_bytes 32))
    by reflexivity.
  apply andb_true_r.
Qed.

(** A receipt whose report data was produced for [(A, X)] passes the
    report-data check under [(A, X)], and under any [(B, Y)] it fails it,
    with ReportDataMismatch once its enclave is allowed, exactly when the
    binding hash of [(B, Y)] differs from that of [(A, X)]. Distinct pairs
    of 32-byte values are always hashed from distinct inputs. Whether the
    two hashes differ is a question about SHA-256 that this does not
    answer. *)
Lemma report_data_check_follows_hash sig_verify freshness_bound
  (receipt : TeeReceipt) (A X B Y : bytes) (allowed : list bytes)
  (time : Z) :
  length A = 32%nat -> length X = 32%nat ->
  length B = 32%nat -> length Y = 32%nat ->
  report_data receipt = _compute_report_data A (mkPubkey X) ->
  report_data_matches receipt A X = true
  /\ (report_data_matches receipt B Y = false
      <-> compute_binding_hash A X <> compute_binding_hash B Y)
  /\ (mr_enclave receipt ∈ allowed ->
      (verify_receipt sig_verify freshness_bound receipt B Y allowed time
         = Err ReportDataMismatch
       <-> compute_binding_hash A X <> compute_binding_hash B Y))
  /\ ((A, X) <> (B, Y) -> A ++ X <> B ++ Y).
Proof.
  intros HA HX HB HY Hrd.
  pose proof (report_data_matches_built receipt A B (mkPubkey X) Y Hrd)
    as HBY.
  pose proof (report_data_matches_built receipt A A (mkPubkey X) X Hrd)
    as HAX.
  change (_compute_message A (mkPubkey X)) with (compute_binding_hash A X)
    in HBY, HAX.
  split_and!.
  - rewrite HAX. apply bool_decide_eq_true_2. reflexivity.
  - rewrite HBY. apply bool_decide_eq_false.
  - intros Hallowed. unfold verify_receipt, and_then.
    rewrite (bool_decide_eq_true_2 _ Hallowed). cbn [ensure].
    rewrite HBY. split.
    + intros Hres Heq.
      rewrite (bool_decide_eq_true_2 _ Heq) in Hres. cbn [ensure] in Hres.
      repeat (match type of Hres with
              | context [ensure ?b _] => destruct b; cbn [ensure] in Hres
              end); discriminate.
    + intros Hne. rewrite (bool_decide_eq_false_2 _ Hne). reflexivity.
  - intros Hne Heq.
    destruct (app_inj_length A X B Y) as [-> ->];
      [congruence | assumption | contradiction].
Qed.

(** On the identities of the scenario a receipt is turned away under
    another signal id and under another provider. *)
Example receipt_rejected_elsewhere :
  let A := some_signal_id in
  let B := other_signal_id in
  let X := pubkey_bytes wallet in
  let Y := pubkey_bytes stranger in
  let receipt := receipt_for A wallet in
  let verify sid who :=
    verify_receipt toy_verify None receipt sid who [test_mr_enclave]
      current_time in
  A <> B /\ X <> Y
  /\ verify A X = Ok tt
  /\ verify B X = Err ReportDataMismatch
  /\ verify A Y = Err ReportDataMismatch.
Proof.
  cbv zeta.
  assert (Hin : mr_enclave (receipt_for some_signal_id wallet)
                ∈ [test_mr_enclave]) by (apply list_elem_of_here).
  pose proof (fun B Y HB HY =>
    report_data_check_follows_hash toy_verify None
      (receipt_for some_signal_id wallet)
      some_signal_id (pubkey_bytes wallet) B Y [test_mr_enclave]
      current_time
      (sha256_length _) eq_refl HB HY eq_refl) as H.
  split_and!.
  - by_computation.
  - by_computation.
  - by_computation.
  - destruct (H other_signal_id (pubkey_bytes wallet)
                (sha256_length _) eq_refl) as (_ & _ & Hver & _).
    apply (Hver Hin). by_computation.
  - destruct (H some_signal_id (pubkey_bytes stranger)
                (sha256_length _) eq_refl) as (_ & _ & Hver & _).
    apply (Hver Hin). by_computation.
Qed.

End Exclusivity.

(** ** [patch_idl.py]: dictionaries *)
Section DictFacts.
Import PatchIdl.
Context {V : Type}.
Implicit Types (obj : list (string * V)) (key k old new : string).

Lemma dict_contains_get key obj :
  dict_contains key obj = true <-> exists v, dict_get key obj = Some v.
Proof.
  unfold dict_contains. destruct (dict_get key obj) as [v |].
  - split; [eauto | reflexivity].
  - split; [discriminate | intros [v Hv]; discriminate].
Qed.

Lemma dict_contains_keys key obj :
  dict_contains key obj = true <-> In key (dict_keys obj).
Proof.
  unfold dict_contains.
  induction obj as [| [k v] rest IH]; simpl.
  - split; [discriminate | contradiction].
  - destruct (String.eqb_spec key k) as [-> | Hne].
    + split; [auto | reflexivity].
    + rewrite IH. split; [auto | intros [Heq | Hin]; congruence].
Qed.

Lemma dict_get_in key obj v : dict_get key obj = Some v -> In (key, v) obj.
Proof.
  induction obj as [| [k v'] rest IH]; simpl; [discriminate |].
  destruct (String.eqb_spec key k) as [-> | Hne].
  - intros [= ->]. left. reflexivity.
  - intros H. right. apply IH. assumption.
Qed.

Lemma dict_get_del key k obj :
  dict_get key (dict_del k obj)
  = if String.eqb key k then None else dict_get key obj.
Proof.
  induction obj as [| [k' v] rest IH]; simpl.
  - destruct (String.eqb key k); reflexivity.
  - destruct (String.eqb_spec k k') as [<- | Hk]; simpl.
    + rewrite IH. destruct (String.eqb key k); reflexivity.
    + rewrite IH.
      destruct (String.eqb_spec key k') as [-> | Hkey].
      * rewrite (proj2 (String.eqb_neq k' k)) by congruence. reflexivity.
      * reflexivity.
Qed.

Lemma dict_get_set key k (value : V) obj :
  dict_get key (dict_set k value obj)
  = if String.eqb key k then Some value else dict_get key obj.
Proof.
  induction obj as [| [k' v] rest IH]; simpl.
  - reflexivity.
  - destruct (String.eqb_spec k k') as [<- | Hk]; simpl.
    + destruct (String.eqb key k); reflexivity.
    + rewrite IH.
      destruct (String.eqb_spec key k') as [-> | Hkey].
      * rewrite (proj2 (String.eqb_neq k' k)) by congruence. reflexivity.
      * reflexivity.
Qed.

Lemma dict_get_drop_key key k obj :
  dict_get key (drop_key k obj)
  = if String.eqb key k then None else dict_get key obj.
Proof.
  unfold drop_key, dict_contains.
  destruct (dict_get k obj) eqn:Hk.
  - apply dict_get_del.
  - destruct (String.eqb_spec key k) as [-> | Hne]; [assumption | reflexivity].
Qed.

Lemma dict_get_rename_key key old new obj :
  old <> new ->
  dict_get key (rename_key old new obj)
  = if String.eqb key new then
      match dict_get old obj with
      | Some v => Some v
      | None => dict_get new obj
      end
    else if String.eqb key old then None
    else dict_get key obj.
Proof.
  intros Hne. unfold rename_key, dict_pop, dict_contains.
  destruct (dict_get old obj) as [v |] eqn:Hold.
  - rewrite dict_get_set, dict_get_del. reflexivity.
  - destruct (String.eqb_spec key new) as [-> | Hnew]; [reflexivity |].
    destruct (String.eqb_spec key old) as [-> | Hkold];
      [assumption | reflexivity].
Qed.

(** What a lookup finds after the four key edits. *)
Lemma dict_get_strip_keys key obj :
  dict_get key (strip_keys obj)
  = if existsb (String.eqb key) removed_keys then None
    else if String.eqb key "isMut" then
      match dict_get "writable" obj with
      | Some v => Some v
      | None => dict_get "isMut" obj
      end
    else if String.eqb key "isSigner" then
      match dict_get "signer" obj with
      | Some v => Some v
      | None => dict_get "isSigner" obj
      end
    else dict_get key obj.
Proof.
  unfold strip_keys. cbv zeta.
  rewrite dict_get_drop_key.
  rewrite dict_get_rename_key by discriminate.
  rewrite !dict_get_rename_key by discriminate.
  rewrite !dict_get_drop_key.
  cbn [removed_keys existsb String.eqb Ascii.eqb Bool.eqb andb orb].
  destruct (String.eqb_spec key "docs") as [-> | Hdocs];
    [reflexivity |].
  destruct (String.eqb_spec key "isSigner") as [-> | HisSigner];
    [reflexivity |].
  destruct (String.eqb_spec key "signer") as [-> | Hsigner];
    [reflexivity |].
  destruct (String.eqb_spec key "isMut") as [-> | HisMut];
    [reflexivity |].
  destruct (String.eqb_spec key "writable") as [-> | Hwritable];
    [reflexivity |].
  destruct (String.eqb_spec key "pda") as [-> | Hpda];
    reflexivity.
Qed.

(** The key edits only move and drop values. *)
Lemma dict_del_in key obj kv : In kv (dict_del key obj) -> In kv obj.
Proof.
  induction obj as [| [k v] rest IH]; simpl; [contradiction |].
  destruct (String.eqb key k); simpl; intuition.
Qed.

Lemma dict_set_in key (value : V) obj kv :
  In kv (dict_set key value obj) -> snd kv = value \/ In kv obj.
Proof.
  induction obj as [| [k v] rest IH]; simpl.
  - intros [<- | []]. left. reflexivity.
  - destruct (String.eqb key k); simpl.
    + intros [<- | Hin]; [left; reflexivity | right; right; assumption].
    + intros [<- | Hin]; [right; left; reflexivity |].
      destruct (IH Hin); [left | right; right]; assumption.
Qed.

Lemma strip_keys_in obj kv :
  In kv (strip_keys obj) -> exists k, In (k, snd kv) obj.
Proof.
  assert (Hdrop : forall k (o : list (string * V)) kv',
             In kv' (drop_key k o) -> In kv' o).
  { intros k o kv'. unfold drop_key.
    destruct (dict_contains k o); [apply dict_del_in | auto]. }
  assert (Hren : forall old new (o : list (string * V)) kv',
             In kv' (rename_key old new o) -> exists k, In (k, snd kv') o).
  { intros old new o [k' v']. unfold rename_key, dict_pop, dict_contains.
    destruct (dict_get old o) as [v |] eqn:Hold; [| eauto].
    intros Hin. apply dict_set_in in Hin as [Hv | Hin].
    - simpl in Hv. subst v'. exists old. apply dict_get_in. assumption.
    - exists k'. apply dict_del_in in Hin. assumption. }
  unfold strip_keys. cbv zeta. intros Hin.
  apply Hdrop in Hin.
  apply Hren in Hin as [k1 Hin]. apply Hren in Hin as [k2 Hin].
  apply Hdrop in Hin. exists k2. assumption.
Qed.

Lemma strip_keys_Forall (P : V -> Prop) obj :
  Forall (fun kv => P (snd kv)) obj ->
  Forall (fun kv => P (snd kv)) (strip_keys obj).
Proof.
  rewrite !List.Forall_forall. intros H kv Hin.
  destruct (strip_keys_in obj kv Hin) as [k Hk].
  apply (H (k, snd kv) Hk).
Qed.

(** Without any of the four keys the edits do nothing. *)
Lemma strip_keys_id obj :
  (forall key, In key removed_keys -> dict_contains key obj = false) ->
  strip_keys obj = obj.
Proof.
  intros H. unfold strip_keys, drop_key, rename_key. cbv zeta.
  rewrite (H "pda"%string) by (simpl; auto).
  rewrite (H "writable"%string) by (simpl; auto).
  rewrite (H "signer"%string) by (simpl; auto).
  rewrite (H "docs"%string) by (simpl; auto).
  reflexivity.
Qed.

(** Members under other keys stay, in their order. *)
Lemma untouched_dict_del key obj :
  is_touched key = true -> untouched (dict_del key obj) = untouched obj.
Proof.
  intros Hk. unfold untouched.
  induction obj as [| [k v] rest IH]; simpl; [reflexivity |].
  destruct (String.eqb_spec key k) as [<- | Hne]; simpl.
  - rewrite Hk. simpl. assumption.
  - rewrite IH. reflexivity.
Qed.

Lemma untouched_dict_set key (value : V) obj :
  is_touched key = true -> untouched (dict_set key value obj) = untouched obj.
Proof.
  intros Hk. unfold untouched.
  induction obj as [| [k v] rest IH]; simpl.
  - rewrite Hk. reflexivity.
  - destruct (String.eqb_spec key k) as [<- | Hne]; simpl.
    + rewrite Hk. reflexivity.
    + rewrite IH. reflexivity.
Qed.

Lemma untouched_strip_keys obj : untouched (strip_keys obj) = untouched obj.
Proof.
  assert (Hdrop : forall k (o : list (string * V)), is_touched k = true ->
                              untouched (drop_key k o) = untouched o).
  { intros k o Hk. unfold drop_key.
    destruct (dict_contains k o); [apply untouched_dict_del; assumption |].
    reflexivity. }
  assert (Hren : forall old new (o : list (string * V)),
             is_touched old = true -> is_touched new = true ->
             untouched (rename_key old new o) = untouched o).
  { intros old new o Ho Hn. unfold rename_key, dict_pop.
    destruct (dict_contains old o); [| reflexivity].
    destruct (dict_get old o); [| reflexivity].
    rewrite untouched_dict_set, untouched_dict_del by assumption.
    reflexivity. }
  unfold strip_keys. cbv zeta.
  rewrite Hdrop, !Hren, Hdrop by reflexivity. reflexivity.
Qed.

(** Distinct keys stay distinct. *)
Lemma dict_keys_del key obj :
  dict_keys (dict_del key obj)
  = List.filter (fun k => negb (String.eqb key k)) (dict_keys obj).
Proof.
  induction obj as [| [k v] rest IH]; simpl; [reflexivity |].
  destruct (String.eqb key k); simpl; rewrite IH; reflexivity.
Qed.

Lemma dict_keys_set key (value : V) obj :
  dict_keys (dict_set key value obj)
  = if dict_contains key obj then dict_keys obj else dict_keys obj ++ [key].
Proof.
  unfold dict_contains.
  induction obj as [| [k v] rest IH]; simpl; [reflexivity |].
  destruct (String.eqb key k); simpl; [reflexivity |].
  rewrite IH. destruct (dict_get key rest); reflexivity.
Qed.

Lemma NoDup_dict_del key obj :
  NoDup (dict_keys obj) -> NoDup (dict_keys (dict_del key obj)).
Proof.
  intros H. rewrite dict_keys_del.
  apply NoDup_ListNoDup, List.NoDup_filter, NoDup_ListNoDup, H.
Qed.

Lemma NoDup_dict_set key (value : V) obj :
  NoDup (dict_keys obj) -> NoDup (dict_keys (dict_set key value obj)).
Proof.
  intros H. rewrite dict_keys_set.
  destruct (dict_contains key obj) eqn:Hc; [assumption |].
  apply NoDup_app. split_and!; [assumption | | apply NoDup_singleton].
  intros k Hk Hin. apply list_elem_of_singleton in Hin. subst k.
  apply list_elem_of_In, dict_contains_keys in Hk. congruence.
Qed.

Lemma NoDup_strip_keys obj :
  NoDup (dict_keys obj) -> NoDup (dict_keys (strip_keys obj)).
Proof.
  assert (Hdrop : forall k (o : list (string * V)), NoDup (dict_keys o) ->
                              NoDup (dict_keys (drop_key k o))).
  { intros k o Ho. unfold drop_key.
    destruct (dict_contains k o); [apply NoDup_dict_del |]; assumption. }
  assert (Hren : forall old new (o : list (string * V)),
             NoDup (dict_keys o) ->
                                   NoDup (dict_keys (rename_key old new o))).
  { intros old new o Ho. unfold rename_key, dict_pop.
    destruct (dict_contains old o); [| assumption].
    destruct (dict_get old o); [| assumption].
    apply NoDup_dict_set, NoDup_dict_del, Ho. }
  intros H. unfold strip_keys. cbv zeta. auto.
Qed.

End DictFacts.

(** The key edits do not look at the values. *)
Section DictMap.
Import PatchIdl.
Context {V W : Type} (f : V -> W).
Implicit Types (obj : list (string * V)) (key : string).

Lemma dict_keys_map_values obj : dict_keys (map_values f obj) = dict_keys obj.
Proof.
  unfold dict_keys, map_values. rewrite List.map_map. reflexivity.
Qed.

Lemma dict_get_map_values key obj :
  dict_get key (map_values f obj) = option_map f (dict_get key obj).
Proof.
  induction obj as [| [k v] rest IH]; simpl; [reflexivity |].
  destruct (String.eqb key k); [reflexivity | assumption].
Qed.

Lemma dict_contains_map_values key obj :
  dict_contains key (map_values f obj) = dict_contains key obj.
Proof.
  unfold dict_contains. rewrite dict_get_map_values.
  destruct (dict_get key obj); reflexivity.
Qed.

Lemma dict_del_map_values key obj :
  dict_del key (map_values f obj) = map_values f (dict_del key obj).
Proof.
  induction obj as [| [k v] rest IH]; simpl; [reflexivity |].
  destruct (String.eqb key k); simpl; rewrite IH; reflexivity.
Qed.

Lemma dict_set_map_values key (value : V) obj :
  dict_set key (f value) (map_values f obj)
  = map_values f (dict_set key value obj).
Proof.
  induction obj as [| [k v] rest IH]; simpl; [reflexivity |].
  destruct (String.eqb key k); simpl; [reflexivity |].
  rewrite IH. reflexivity.
Qed.

Lemma drop_key_map_values key obj :
  drop_key key (map_values f obj) = map_values f (drop_key key obj).
Proof.
  unfold drop_key. rewrite dict_contains_map_values.
  destruct (dict_contains key obj); [apply dict_del_map_values | reflexivity].
Qed.

Lemma rename_key_map_values (old new : string) obj :
  rename_key old new (map_values f obj)
  = map_values f (rename_key old new obj).
Proof.
  unfold rename_key, dict_pop.
  rewrite dict_contains_map_values, dict_get_map_values.
  destruct (dict_contains old obj); [| reflexivity].
  destruct (dict_get old obj) as [v |]; simpl; [| reflexivity].
  rewrite dict_del_map_values. apply dict_set_map_values.
Qed.

Lemma strip_keys_map_values obj :
  strip_keys (map_values f obj) = map_values f (strip_keys obj).
Proof.
  unfold strip_keys. cbv zeta.
  rewrite drop_key_map_values, !rename_key_map_values, drop_key_map_values.
  reflexivity.
Qed.

Lemma untouched_map_values obj :
  untouched (map_values f obj) = map_values f (untouched obj).
Proof.
  unfold untouched, map_values.
  induction obj as [| [k v] rest IH]; simpl; [reflexivity |].
  destruct (is_touched k); simpl; rewrite IH; reflexivity.
Qed.

End DictMap.

(** ** [patch_idl.py]: [strip_pda] *)
Section StripPda.
Import PatchIdl.

(** Induction over a document and, with it, over the values it holds. *)
Lemma json_induction (P : json -> Prop) :
  P JNull ->
  (forall b, P (JBool b)) ->
  (forall n, P (JInt n)) ->
  (forall literal, P (JFloat literal)) ->
  (forall s, P (JString s)) ->
  (forall items, Forall P items -> P (JArray items)) ->
  (forall members,
      Forall (fun kv => P (snd kv)) members -> P (JObject members)) ->
  forall obj, P obj.
Proof.
  intros Hnull Hbool Hint Hfloat Hstr Harr Hobj.
  fix IH 1. intros [| b | n | literal | s | items | members].
  - exact Hnull.
  - apply Hbool.
  - apply Hint.
  - apply Hfloat.
  - apply Hstr.
  - apply Harr. induction items as [| x items IHitems].
    + constructor.
    + constructor; [apply IH | exact IHitems].
  - apply Hobj. induction members as [| [k v] members IHmembers].
    + constructor.
    + constructor; [apply IH | exact IHmembers].
Qed.

Lemma existsb_false_Forall {A} (f : A -> bool) (l : list A) :
  existsb f l = false <-> Forall (fun x => f x = false) l.
Proof.
  induction l as [| x l IH]; simpl.
  - split; [constructor | reflexivity].
  - rewrite orb_false_iff, IH. split.
    + intros [Hx Hl]. constructor; assumption.
    + intros H. inversion H; subst. split; assumption.
Qed.

Lemma removed_key_eqb (key : string) :
  In key removed_keys -> existsb (String.eqb key) removed_keys = true.
Proof.
  intros Hin. apply existsb_exists. exists key.
  split; [assumption | apply String.eqb_refl].
Qed.

(** The source's order: the keys are edited, then the values that are left
    are visited. *)
Lemma strip_pda_object (members : list (string * json)) :
  strip_pda (JObject members)
  = JObject (map_values strip_pda (strip_keys members)).
Proof.
  cbn [strip_pda]. f_equal.
  apply (strip_keys_map_values strip_pda members).
Qed.

Lemma strip_pda_array (items : list json) :
  strip_pda (JArray items) = JArray (map strip_pda items).
Proof. reflexivity. Qed.

Lemma mentions_object (key : string) (members : list (string * json)) :
  mentions key (JObject members) = false
  <-> dict_contains key members = false
      /\ Forall (fun kv => mentions key (snd kv) = false) members.
Proof.
  cbn [mentions]. rewrite orb_false_iff, existsb_false_Forall. reflexivity.
Qed.

(** No dictionary of the result has one of the four keys. *)
Lemma strip_pda_removes (key : string) (obj : json) :
  In key removed_keys -> mentions key (strip_pda obj) = false.
Proof.
  intros Hkey. induction obj as [| | | | | items IH | members IH]
    using json_induction; try reflexivity.
  - rewrite strip_pda_array. cbn [mentions].
    apply existsb_false_Forall, Forall_map. exact IH.
  - rewrite strip_pda_object. apply mentions_object. split.
    + rewrite dict_contains_map_values. unfold dict_contains.
      rewrite dict_get_strip_keys, (removed_key_eqb key Hkey). reflexivity.
    + unfold map_values. apply Forall_map. cbn [snd].
      apply (strip_keys_Forall
               (fun v => mentions key (strip_pda v) = false)).
      exact IH.
Qed.

(** A document without the four keys is left as it is. *)
Lemma strip_pda_fixed (obj : json) :
  (forall key, In key removed_keys -> mentions key obj = false) ->
  strip_pda obj = obj.
Proof.
  induction obj as [| | | | | items IH | members IH]
    using json_induction; intros Hclean; try reflexivity.
  - rewrite strip_pda_array. f_equal.
    rewrite <- (List.map_id items) at 2. apply List.map_ext_Forall.
    rewrite List.Forall_forall in IH |- *. intros x Hx. apply IH; [exact Hx |].
    intros key Hkey. specialize (Hclean key Hkey). cbn [mentions] in Hclean.
    rewrite existsb_false_Forall, List.Forall_forall in Hclean.
    apply Hclean, Hx.
  - cbn [strip_pda].
    replace (map (fun kv => (fst kv, strip_pda (snd kv))) members)
      with members.
    + f_equal. apply strip_keys_id. intros key Hkey.
      apply (mentions_object key members), Hclean, Hkey.
    + rewrite <- (List.map_id members) at 1. apply List.map_ext_Forall.
      rewrite List.Forall_forall in IH |- *. intros [k v] Hkv. cbn [fst snd].
      f_equal. symmetry. apply (IH (k, v) Hkv).
      intros key Hkey.
      pose proof (proj1 (mentions_object key members) (Hclean key Hkey))
        as [_ Hvals].
      rewrite List.Forall_forall in Hvals. apply (Hvals (k, v) Hkv).
Qed.

Lemma clean_spec (obj : json) :
  clean obj = true
  <-> forall key, In key removed_keys -> mentions key obj = false.
Proof.
  unfold clean. rewrite forallb_forall. split; intros H key Hkey.
  - apply negb_true_iff, H, Hkey.
  - apply negb_true_iff, H, Hkey.
Qed.

Lemma well_formed_fold {A} (f : A -> json) (l : list A) :
  fold_right (fun x acc => well_formed (f x) /\ acc) True l
  <-> Forall (fun x => well_formed (f x)) l.
Proof.
  induction l as [| x l IH]; simpl.
  - split; [constructor | trivial].
  - rewrite IH. split.
    + intros [Hx Hl]. constructor; assumption.
    + intros H. inversion H; subst. split; assumption.
Qed.

Lemma strip_pda_well_formed (obj : json) :
  well_formed obj -> well_formed (strip_pda obj).
Proof.
  induction obj as [| | | | | items IH | members IH]
    using json_induction; intros Hwf; try exact I.
  - rewrite strip_pda_array. cbn [well_formed] in *.
    apply (well_formed_fold (fun x => x)).
    apply (well_formed_fold (fun x => x)) in Hwf.
    apply Forall_map.
    rewrite List.Forall_forall in IH, Hwf |- *. intros x Hx.
    apply IH; [exact Hx | apply Hwf, Hx].
  - rewrite strip_pda_object. cbn [well_formed] in *.
    destruct Hwf as [Hkeys Hvals]. split.
    + rewrite dict_keys_map_values. apply NoDup_strip_keys, Hkeys.
    + apply (well_formed_fold snd). apply (well_formed_fold snd) in Hvals.
      unfold map_values. apply Forall_map. cbn [snd].
      apply (strip_keys_Forall (fun v => well_formed (strip_pda v))).
      rewrite List.Forall_forall in IH, Hvals |- *. intros kv Hkv.
      apply IH; [exact Hkv | apply Hvals, Hkv].
Qed.

End StripPda.

(** ** [patch_idl.py]: what a user of [strip_pda] and [main] can rely on *)
Section PatchIdlProperties.
Import PatchIdl IdlScenario.

(** The instruction of the scenario, patched. *)
Example strip_pda_instruction : strip_pda instruction = patched_instruction.
Proof. vm_compute. reflexivity. Qed.

(** X1. After [strip_pda] no dictionary of the document, at any depth, has
    a key [pda], [writable], [signer] or [docs]. *)
Theorem X1_strip_pda_removes_keys (obj : json) :
  mentions "pda" (strip_pda obj) = false
  /\ mentions "writable" (strip_pda obj) = false
  /\ mentions "signer" (strip_pda obj) = false
  /\ mentions "docs" (strip_pda obj) = false.
Proof.
  split_and!; apply strip_pda_removes; simpl; auto.
Qed.

(** X2. [strip_pda] is idempotent: patching a patched document changes
    nothing. *)
Theorem X2_strip_pda_idempotent (obj : json) :
  strip_pda (strip_pda obj) = strip_pda obj.
Proof.
  apply strip_pda_fixed. intros key Hkey. apply strip_pda_removes, Hkey.
Qed.

(** X3. [strip_pda] leaves a document as it is exactly when no dictionary
    of it has one of the four keys. *)
Theorem X3_strip_pda_fixed_iff_clean (obj : json) :
  strip_pda obj = obj <-> clean obj = true.
Proof.
  rewrite clean_spec. split.
  - intros Heq key Hkey. rewrite <- Heq. apply strip_pda_removes, Hkey.
  - apply strip_pda_fixed.
Qed.

(** X4. In a dictionary the value of [writable] moves to [isMut] and that
    of [signer] to [isSigner], replacing a value already there; without
    [writable] (or [signer]) the existing [isMut] (or [isSigner]) stays.
    Either way the value found is the patched one. *)
Theorem X4_strip_pda_renames (members : list (string * json)) :
  exists members',
    strip_pda (JObject members) = JObject members'
    /\ dict_get "isMut" members'
       = option_map strip_pda
           match dict_get "writable" members with
           | Some v => Some v
           | None => dict_get "isMut" members
           end
    /\ dict_get "isSigner" members'
       = option_map strip_pda
           match dict_get "signer" members with
           | Some v => Some v
           | None => dict_get "isSigner" members
           end
    /\ dict_get "writable" members' = None
    /\ dict_get "signer" members' = None.
Proof.
  exists (map_values strip_pda (strip_keys members)).
  split; [apply strip_pda_object |].
  rewrite !dict_get_map_values, !dict_get_strip_keys.
  split_and!; reflexivity.
Qed.

(** X5. Members under any other key are kept, in their order, each with its
    value patched; a lookup of such a key finds the patched value of the
    original one. *)
Theorem X5_strip_pda_keeps_other_members (members : list (string * json)) :
  exists members',
    strip_pda (JObject members) = JObject members'
    /\ untouched members' = map_values strip_pda (untouched members)
    /\ forall key,
         is_touched key = false ->
         dict_get key members' = option_map strip_pda (dict_get key members).
Proof.
  exists (map_values strip_pda (strip_keys members)).
  split; [apply strip_pda_object |]. split.
  - rewrite untouched_map_values, untouched_strip_keys. reflexivity.
  - intros key Hkey. rewrite dict_get_map_values, dict_get_strip_keys.
    unfold is_touched in Hkey.
    cbn [touched_keys removed_keys existsb] in Hkey |- *.
    repeat (apply orb_false_iff in Hkey as [? Hkey]).
    repeat match goal with
           | H : String.eqb key _ = false |- _ => rewrite H; clear H
           end.
    reflexivity.
Qed.

(** X6. A document whose dictionaries have distinct keys, as every value of
    [json.load] has, is patched into one that has distinct keys again: a
    rename never produces a second [isMut] or [isSigner]. *)
Theorem X6_strip_pda_keeps_keys_distinct (obj : json) :
  well_formed obj -> well_formed (strip_pda obj).
Proof. apply strip_pda_well_formed. Qed.

Lemma instruction_well_formed : well_formed instruction.
Proof.
  cbn [well_formed instruction account fold_right snd].
  repeat split;
    apply (bool_decide_eq_true_1 _); vm_compute; reflexivity.
Qed.

Lemma X6_strip_pda_keeps_keys_distinct_witness :
  well_formed instruction /\ well_formed (strip_pda instruction).
Proof.
  split; [exact instruction_well_formed |].
  apply (X6_strip_pda_keeps_keys_distinct instruction).
  exact instruction_well_formed.
Defined.



(** X7. [main] changes no file but the one named by its first argument,
    and that one it either leaves as it was or replaces by a beginning of
    the dump of the patched document, keeping its permissions. It is left
    as it was whenever the run stops before the file is opened for
    writing: too few arguments, a missing or unreadable file, text that
    [json.load] refuses, nesting beyond the recursion limit, a file that
    may not be written. Too few arguments, and nothing else, end in
    [sys.exit(1)], after the usage line. *)
Theorem X7_main_touches_one_file json_load json_dump recursion_limit
  (fault : option WriteFault) (argv : list string) (fs : gmap string File) :
  let run := main json_load json_dump recursion_limit fault argv fs in
  let path := nth 1 argv ""%string in
  (forall other, other <> path -> files run !! other = fs !! other)
  /\ (files run = fs
      \/ exists file data n,
           fs !! path = Some file
           /\ json_load (text file) = Parsed data
           /\ files run
              = <[path := mkFile (prefix n (json_dump (strip_pda data)))
                            (readable file) (writable file)]> fs)
  /\ ((length argv < 2)%nat
      \/ fs !! path = None
      \/ (exists file,
            fs !! path = Some file
            /\ (readable file = false
                \/ writable file = false
                \/ (exists exception,
                      json_load (text file) = LoadError exception)
                \/ (exists data,
                      json_load (text file) = Parsed data
                      /\ (recursion_limit < frames data)%nat))) ->
      files run = fs /\ outcome run <> Returned)
  /\ ((length argv < 2)%nat <-> outcome run = Exited 1)
  /\ ((length argv < 2)%nat ->
      stdout run = ["Usage: python patch_idl.py <idl_path>"%string]).
Proof.
  cbv zeta. unfold main.
  destruct (Nat.ltb_spec (length argv) 2) as [Hshort | Hlong].
  { cbn [files outcome stdout]. split_and!.
    - intros other _. reflexivity.
    - left. reflexivity.
    - intros _. split; [reflexivity | discriminate].
    - split; [reflexivity | intros _; exact Hshort].
    - intros _. reflexivity. }
  assert (Hstop : forall (exception : string) (P : Prop),
             let run := mkProcess [] (Raised exception) fs in
             (forall other, other <> nth 1 argv ""%string ->
                            files run !! other = fs !! other)
             /\ (files run = fs
                 \/ exists file data n,
                      fs !! nth 1 argv ""%string = Some file
                      /\ json_load (text file) = Parsed data
                      /\ files run
                         = <[nth 1 argv ""%string :=
                               mkFile (prefix n (json_dump (strip_pda data)))
                                 (readable file) (writable file)]> fs)
             /\ (P -> files run = fs /\ outcome run <> Returned)
             /\ ((length argv < 2)%nat <-> outcome run = Exited 1)
             /\ ((length argv < 2)%nat ->
                 stdout run
                 = ["Usage: python patch_idl.py <idl_path>"%string])).
  { intros exception P. cbn [files outcome stdout]. split_and!.
    - intros other _. reflexivity.
    - left. reflexivity.
    - intros _. split; [reflexivity | discriminate].
    - split; [lia | discriminate].
    - lia. }
  destruct (fs !! nth 1 argv ""%string) as [file |] eqn:Hfile;
    [| apply Hstop].
  destruct (readable file) eqn:Hread; cbn [negb]; [| apply Hstop].
  destruct (json_load (text file)) as [data | exception] eqn:Hload;
    [| apply Hstop].
  destruct (Nat.ltb_spec recursion_limit (frames data)) as [Hdeep | Hfits];
    [apply Hstop |].
  destruct (writable file) eqn:Hwrite; cbn [negb]; [| apply Hstop].
  assert (Hnostop :
            ~ ((length argv < 2)%nat
               \/ Some file = None
               \/ (exists file',
                     Some file = Some file'
                     /\ (readable file' = false
                         \/ writable file' = false
                         \/ (exists exception,
                               json_load (text file') = LoadError exception)
                         \/ (exists data',
                               json_load (text file') = Parsed data'
                               /\ (recursion_limit < frames data')%nat))))).
  { intros [Hs | [Hn | (file' & Hsame & Hbad)]]; [lia | discriminate |].
    injection Hsame as <-.
    destruct Hbad as [Hb | [Hb | [(exception & Hb) | (data' & Hb & Hd)]]];
      try congruence.
    rewrite Hload in Hb. injection Hb as <-. lia. }
  assert (Hfull : forall s : string, prefix (String.length s) s = s).
  { induction s as [| c s IHs]; cbn; [reflexivity | f_equal; assumption]. }
  destruct fault as [f |]; cbn [files outcome stdout]; split_and!.
  - intros other Hother. apply lookup_insert_ne. congruence.
  - right. exists file, data, (written f). rewrite Hread, Hwrite. auto.
  - intros Hstopped. contradiction.
  - split; [lia | discriminate].
  - lia.
  - intros other Hother. apply lookup_insert_ne. congruence.
  - right. exists file, data, (String.length (json_dump (strip_pda data))).
    rewrite Hread, Hwrite, Hfull. auto.
  - intros Hstopped. contradiction.
  - split; [lia | discriminate].
  - lia.
Qed.

(** X8. When [main] returns normally it was given a path, the file was
    there, readable and writable, and its text was JSON nested within the
    recursion limit; the file now holds the dump of the patched document,
    which has none of the four keys, under its old permissions, and the
    one line [Patched <path>] was printed. *)
Theorem X8_main_writes_patched_document json_load json_dump recursion_limit
  (fault : option WriteFault) (argv : list string) (fs : gmap string File) :
  let run := main json_load json_dump recursion_limit fault argv fs in
  let path := nth 1 argv ""%string in
  outcome run = Returned ->
  exists file data,
    (2 <= length argv)%nat
    /\ fs !! path = Some file
    /\ readable file = true /\ writable file = true
    /\ json_load (text file) = Parsed data
    /\ (frames data <= recursion_limit)%nat
    /\ files run !! path
       = Some (mkFile (json_dump (strip_pda data)) true true)
    /\ clean (strip_pda data) = true
    /\ stdout run = [String.append "Patched " path].
Proof.
  cbv zeta. unfold main.
  destruct (Nat.ltb_spec (length argv) 2) as [Hshort | Hlong];
    [discriminate |].
  destruct (fs !! nth 1 argv ""%string) as [file |] eqn:Hfile;
    [| discriminate].
  destruct (readable file) eqn:Hread; cbn [negb]; [| discriminate].
  destruct (json_load (text file)) as [data | exception] eqn:Hload;
    [| discriminate].
  destruct (Nat.ltb_spec recursion_limit (frames data)) as [Hdeep | Hfits];
    [discriminate |].
  destruct (writable file) eqn:Hwrite; cbn [negb]; [| discriminate].
  destruct fault as [f |]; [discriminate |].
  intros _. cbn [files outcome stdout].
  exists file, data. split_and!; auto.
  - apply lookup_insert_eq.
  - apply clean_spec. intros key Hkey. apply strip_pda_removes, Hkey.
Qed.

Lemma X8_main_writes_patched_document_witness :
  outcome (toy_main None argv disk) = Returned
  /\ files (toy_main None argv disk) !! "idl.json"%string
     = Some (mkFile "patched" true true)
  /\ stdout (toy_main None argv disk) = ["Patched idl.json"%string].
Proof.
  assert (Hret : outcome (toy_main None argv disk) = Returned)
    by (vm_compute; reflexivity).
  destruct (X8_main_writes_patched_document toy_load toy_dump 100 None
              argv disk Hret)
    as (file & data & _ & Hfile & _ & _ & Hload & _ & Hnew & _ & Hout).
  vm_compute in Hfile. injection Hfile as <-.
  vm_compute in Hload. injection Hload as <-.
  split_and!; [exact Hret | | exact Hout].
  unfold toy_main. cbn [nth argv] in Hnew. rewrite Hnew.
  vm_compute. reflexivity.
Defined.



End PatchIdlProperties.

(** ** The payload builders of the integration tests *)
Section Builders.
Import TestSignalOracle.

(** X10. [with_sources(count)] with a count that is not negative records
    the count and sets exactly the [count] lowest bits of the bitmap, so
    the bitmap always has as many bits as sources; it leaves the slot and
    the time stamp alone. A negative count raises. *)
Theorem X10_with_sources_bitmap (self : MarketContextBuilder) (count : Z) :
  (count < 0 -> mcb_with_sources self count = None)
  /\ (0 <= count ->
      exists b,
        mcb_with_sources self count = Some b
        /\ source_count (mcb_build b) = count
        /\ source_bitmap (mcb_build b) = 2 ^ count - 1
        /\ (forall i, Z.testbit (source_bitmap (mcb_build b)) i
                      = (0 <=? i) && (i <? count))
        /\ captured_at_slot (mcb_build b) = mcb_captured_at_slot self
        /\ timestamp (mcb_build b) = mcb_timestamp self).
Proof.
  unfold mcb_with_sources. split.
  - intros Hneg. rewrite (proj2 (Z.ltb_lt count 0) Hneg). reflexivity.
  - intros Hpos. rewrite (proj2 (Z.ltb_ge count 0) Hpos).
    eexists. split; [reflexivity |]. cbn.
    split_and!; try reflexivity.
    + rewrite Z.shiftl_1_l. reflexivity.
    + intros i. rewrite Z.sub_1_r. apply (Z.testbit_ones count i Hpos).
Qed.

(** X11. The setters of [SignalAssessmentBuilder] compose as a user
    expects: the validity window and the confidence are independent (the
    two setters commute), the last window set is the one built, and the
    built payload starts at the given slot, lasts the given duration and
    carries the given confidence. *)
Theorem X11_assessment_setters_compose (self : SignalAssessmentBuilder)
  (slot duration other_slot c : Z) :
  let a := sab_build (with_confidence (with_validity self slot duration) c) in
  generated_at_slot a = slot
  /\ valid_until_slot a - generated_at_slot a = duration
  /\ confidence a = c
  /\ with_confidence (with_validity self slot duration) c
     = with_validity (with_confidence self c) slot duration
  /\ with_confidence (with_expired self slot) c
     = with_expired (with_confidence self c) slot
  /\ with_validity (with_expired self other_slot) slot duration
     = with_validity self slot duration
  /\ with_expired (with_validity self slot duration) other_slot
     = with_expired self other_slot.
Proof.
  destruct self. cbn. split_and!; try reflexivity. lia.
Qed.

(** X12. [with_expired(current_slot)] always builds a window of 100 slots
    that ended 100 slots before the current one: it is expired, and its
    width lies within the validity bounds the tests configure, so the
    expiry is the only thing wrong with it. Below slot 200 the window
    starts at a negative slot. *)
Theorem X12_with_expired_window (self : SignalAssessmentBuilder)
  (current_slot : Z) :
  let a := sab_build (with_expired self current_slot) in
  valid_until_slot a = current_slot - 100
  /\ valid_until_slot a < current_slot
  /\ valid_until_slot a - generated_at_slot a = 100
  /\ MIN_VALIDITY_SLOTS <= valid_until_slot a - generated_at_slot a
     <= MAX_VALIDITY_SLOTS
  /\ (generated_at_slot a < 0 <-> current_slot < 200)
  /\ (valid_until_slot a < 0 <-> current_slot < 100)
  /\ confidence a = sab_confidence self.
Proof.
  destruct self. unfold MIN_VALIDITY_SLOTS, MAX_VALIDITY_SLOTS. cbn.
  split_and!; try reflexivity; lia.
Qed.

(** X13. [SignalAssessmentBuilder.build] drops the builder's direction and
    nothing else: the payload is always Long, and two builders build the
    same payload exactly when they agree on every other field. *)
Theorem X13_build_drops_only_direction (b b' : SignalAssessmentBuilder) :
  direction (sab_build b) = Long
  /\ (sab_build b = sab_build b'
      <-> sab_strength b = sab_strength b'
          /\ sab_confidence b = sab_confidence b'
          /\ sab_time_horizon_slots b = sab_time_horizon_slots b'
          /\ sab_valid_until_slot b = sab_valid_until_slot b'
          /\ sab_generated_at_slot b = sab_generated_at_slot b'
          /\ sab_risk_score b = sab_risk_score b'
          /\ sab_suggested_size_bps b = sab_suggested_size_bps b'
          /\ sab_model_version b = sab_model_version b'
          /\ sab_model_params_hash b = sab_model_params_hash b').
Proof.
  destruct b, b'. unfold sab_build. cbn. split; [reflexivity |]. split.
  - intros [= -> -> -> -> -> -> -> -> ->]. split_and!; reflexivity.
  - intros (-> & -> & -> & -> & -> & -> & -> & -> & ->). reflexivity.
Qed.

(** X14. A built receipt is consistent in itself: the signature is made
    with the builder's key pair over the first 32 bytes of the report
    data, the report data is 64 bytes ending in 32 zero bytes, the public
    key is that of the same key pair, and the enclave measurement is the
    builder's. *)
Theorem X14_receipt_signature_covers_report_data
  (sign_message : Keypair -> bytes -> bytes) (now : Z)
  (self : TeeReceiptBuilder) (signal_id : bytes) (provider : Pubkey) :
  let r := trb_build sign_message now self signal_id provider in
  enclave_signature r
    = sign_message (trb_enclave_keypair self) (take 32 (report_data r))
  /\ length (report_data r) = 64%nat
  /\ drop 32 (report_data r) = zero_bytes 32
  /\ enclave_pubkey r = pubkey_bytes (pubkey (trb_enclave_keypair self))
  /\ mr_enclave r = trb_mr_enclave self
  /\ mr_signer r = trb_mr_signer self
  /\ length (tr_reserved r) = 13%nat.
Proof.
  cbv zeta. unfold trb_build. cbn [enclave_signature report_data
    enclave_pubkey mr_enclave mr_signer tr_reserved].
  destruct (report_data_split signal_id provider) as [Htake Hdrop].
  rewrite Htake, Hdrop. split_and!.
  - reflexivity.
  - unfold _compute_report_data. cbv zeta.
    rewrite length_app, sha256_length, zero_bytes_length. reflexivity.
  - reflexivity.
  - reflexivity.
  - reflexivity.
  - reflexivity.
  - apply zero_bytes_length.
Qed.

(** X15. [sign] signs nothing: it only stamps the builder with the current
    time, whatever signal id, market context and assessment it is given.
    A receipt built afterwards carries that stamp (the time of building
    when the stamp is 0) and the signature and report data it would have
    carried without [sign]. *)
Theorem X15_sign_only_stamps
  (sign_message : Keypair -> bytes -> bytes) (now later : Z)
  (self : TeeReceiptBuilder) (sid sid' signal_id : bytes)
  (mc mc' : MarketContext) (a a' : SignalAssessment) (provider : Pubkey) :
  let stamped := sign now self sid mc a in
  let r := trb_build sign_message later stamped signal_id provider in
  let plain := trb_build sign_message later self signal_id provider in
  stamped = sign now self sid' mc' a'
  /\ attestation_timestamp r = (if now =? 0 then later else now)
  /\ enclave_signature r = enclave_signature plain
  /\ report_data r = report_data plain
  /\ mr_enclave r = mr_enclave plain
  /\ attestation_timestamp plain
     = (if trb_attestation_timestamp self =? 0 then later
        else trb_attestation_timestamp self).
Proof.
  cbv zeta. unfold sign, trb_build.
  cbn [attestation_timestamp enclave_signature report_data mr_enclave
       trb_attestation_timestamp trb_enclave_keypair trb_mr_enclave].
  split_and!; reflexivity.
Qed.

End Builders.

(** ** The log of the off-chain module *)
Section TeeLog.
Import Tee.

(** X16. [get_attester] keeps every record already handled and hands the
    handlers, in this order, the warning of [detect_platform] and [No TEE
    platform detected], each one only if the logger lets it through: both
    when [sso1.tee] emits warnings, none when it does not. It never gets
    as far as the warning of the [SevSnpAttester] constructor or the one
    about Intel TDX, and the logger's configuration is left as it was. *)
Theorem X16_get_attester_log (log : Logging) :
  let detected :=
    tee_warning "detect_platform: NOT IMPLEMENTED - returning UNKNOWN" in
  let none := tee_warning "No TEE platform detected" in
  emitted get_attester log
    = records log ++ List.filter (emits log) [detected; none]
  /\ ((forall r, log_level r = WARNING -> emits log r = true) ->
      emitted get_attester log = records log ++ [detected; none])
  /\ ((forall r, log_level r = WARNING -> emits log r = false) ->
      emitted get_attester log = records log)
  /\ emits (snd (get_attester log)) = emits log
  /\ (forall msg,
        In msg
          [ "SevSnpAttester: NOT IMPLEMENTED - attestation unavailable";
            "Intel TDX not yet supported" ]%string ->
        ~ In (tee_warning msg)
            (drop (length (records log)) (emitted get_attester log))).
Proof.
  cbv zeta. pose proof (get_attester_log log) as Hlog.
  fold (tee_warning "detect_platform: NOT IMPLEMENTED - returning UNKNOWN")
    in Hlog.
  fold (tee_warning "No TEE platform detected") in Hlog.
  split_and!.
  - exact Hlog.
  - intros Hon. rewrite Hlog. cbn [List.filter].
    rewrite !Hon by reflexivity. reflexivity.
  - intros Hoff. rewrite Hlog. cbn [List.filter].
    rewrite !Hoff by reflexivity. apply app_nil_r.
  - unfold get_attester, bind. rewrite detect_platform_returns.
    cbn [TeePlatform_eqb fst snd warning ret].
    rewrite !(proj2 (records_handle _ _)). reflexivity.
  - intros msg Hmsg. rewrite Hlog, drop_app_length.
    intros Hin. apply List.filter_In in Hin as [Hin _].
    cbn [In] in Hin, Hmsg.
    destruct Hmsg as [<- | [<- | []]];
      destruct Hin as [H | [H | []]]; discriminate.
Qed.

End TeeLog.
